(** * The scraper of [scraper.py], embedded and verified

    The three collection passes of [scraper.py] (products, reviews,
    testimonials) and [run_scraper] are embedded below: strings are
    sequences of Unicode code points, the browser is an abstract world
    reached through the operations the source calls, exceptions are
    explicit outcomes, and the [while] loops take fuel. *)

From Stdlib Require Import String Ascii List ZArith NArith Lia Bool Arith.
Import ListNotations.

Set Implicit Arguments.

(** ** Python strings *)

Module Py.

(** A Python [str] is a sequence of code points. *)
Definition char := N.
Definition str := list char.

Definition char_of_ascii (a : ascii) : char := N_of_ascii a.

(** An ASCII literal of the source. *)
Definition lit (s : string) : str := map char_of_ascii (list_ascii_of_string s).

Definition str_eqb (a b : str) : bool :=
  if list_eq_dec N.eq_dec a b then true else false.

(** The character tables of the interpreter.  Their ASCII part is fixed
    here; the part beyond ASCII belongs to the Unicode database of the
    running interpreter and is a parameter. *)
Class Unicode := {
  uni_isspace : char -> bool;
  uni_decimal : char -> option N;
  uni_lower : str -> str;
  uni_decimal_lt : forall c d, uni_decimal c = Some d -> (d < 10)%N
}.

Definition is_ascii (c : char) : bool := (c <? 128)%N.

(** [Py_UNICODE_ISSPACE] on ASCII: TAB..CR, FS..US and SPACE. *)
Definition ascii_isspace (c : char) : bool :=
  ((9 <=? c) && (c <=? 13) || (28 <=? c) && (c <=? 32))%N.

Definition ascii_decimal (c : char) : option N :=
  if ((48 <=? c) && (c <=? 57))%N then Some (c - 48)%N else None.

Definition ascii_lower (c : char) : char :=
  if ((65 <=? c) && (c <=? 90))%N then (c + 32)%N else c.

Section Tables.
Context {U : Unicode}.

Definition isspace (c : char) : bool :=
  if is_ascii c then ascii_isspace c else uni_isspace c.

(** Decimal value of a character of category Nd. *)
Definition decimal (c : char) : option N :=
  if is_ascii c then ascii_decimal c else uni_decimal c.

Definition isdigit (c : char) : bool :=
  match decimal c with Some _ => true | None => false end.

(** [s.lower()] *)
Definition lower (s : str) : str :=
  if forallb is_ascii s then map ascii_lower s else uni_lower s.

(** [s.lstrip()], [s.rstrip()], [s.strip()] *)
Fixpoint lstrip (s : str) : str :=
  match s with
  | c :: s' => if isspace c then lstrip s' else s
  | [] => []
  end.

Definition rstrip (s : str) : str := rev (lstrip (rev s)).

Definition strip (s : str) : str := rstrip (lstrip s).

(** [int(s)] for a string of decimal digits; [None] is [ValueError]. *)
Fixpoint int_digits (acc : Z) (s : str) : option Z :=
  match s with
  | [] => Some acc
  | c :: s' =>
      match decimal c with
      | Some d => int_digits (10 * acc + Z.of_N d) s'
      | None => None
      end
  end.

Definition int (s : str) : option Z :=
  match s with
  | [] => None
  | _ => int_digits 0 s
  end.
End Tables.

Definition newline : char := 10%N.
Definition space : char := 32%N.

(** [s.split("\n")]: never empty. *)
Fixpoint split_lines (s : str) : list str :=
  match s with
  | [] => [[]]
  | c :: s' =>
      if (c =? newline)%N then [] :: split_lines s'
      else match split_lines s' with
           | l :: ls => (c :: l) :: ls
           | [] => [[c]]
           end
  end.

(** [s.replace("\n", " ")] *)
Definition replace_newlines (s : str) : str :=
  map (fun c => if (c =? newline)%N then space else c) s.

Fixpoint starts_with (p s : str) : bool :=
  match p, s with
  | [], _ => true
  | a :: p', b :: s' => (a =? b)%N && starts_with p' s'
  | _ :: _, [] => false
  end.

(** [needle in hay] *)
Fixpoint contains (needle hay : str) : bool :=
  starts_with needle hay ||
  match hay with
  | [] => false
  | _ :: hay' => contains needle hay'
  end.

(** [max(lines, key=len)]: the first line of greatest length; [None] is
    the [ValueError] of an empty sequence. *)
Definition longer (best y : str) : str :=
  if (length best <? length y)%nat then y else best.

Definition max_by_len (lines : list str) : option str :=
  match lines with
  | [] => None
  | x :: rest => Some (fold_left longer rest x)
  end.

(** [str(n)] for a non-negative integer. *)
Fixpoint digits_of_uint (d : Decimal.uint) : str :=
  match d with
  | Decimal.Nil => []
  | Decimal.D0 d' => 48%N :: digits_of_uint d'
  | Decimal.D1 d' => 49%N :: digits_of_uint d'
  | Decimal.D2 d' => 50%N :: digits_of_uint d'
  | Decimal.D3 d' => 51%N :: digits_of_uint d'
  | Decimal.D4 d' => 52%N :: digits_of_uint d'
  | Decimal.D5 d' => 53%N :: digits_of_uint d'
  | Decimal.D6 d' => 54%N :: digits_of_uint d'
  | Decimal.D7 d' => 55%N :: digits_of_uint d'
  | Decimal.D8 d' => 56%N :: digits_of_uint d'
  | Decimal.D9 d' => 57%N :: digits_of_uint d'
  end.

Definition str_of_nat (n : nat) : str := digits_of_uint (Nat.to_uint n).

End Py.

(** ** Regular expressions

    The two patterns of the source are sequences of single-character
    items, each plain or under [?], [*] or [+].  The matcher follows the
    backtracking order of Python's [re]: a quantifier takes as many
    characters as it can and gives them back one at a time. *)

Module Re.
Import Py.

Inductive item :=
| One (p : char -> bool)
| Opt (p : char -> bool)
| Star (p : char -> bool)
| Plus (p : char -> bool).

Definition regex := list item.

(** Greedy repetition of a character class, then the continuation [k];
    the result is the number of characters consumed. *)
Fixpoint star_k (p : char -> bool) (k : str -> option nat) (s : str)
  : option nat :=
  match s with
  | c :: s' =>
      if p c then
        match star_k p k s' with
        | Some n => Some (S n)
        | None => k s
        end
      else k s
  | [] => k []
  end.

(** Match at the start of [s]; the length of the match. *)
Fixpoint match_here (r : regex) (s : str) : option nat :=
  match r with
  | [] => Some 0
  | One p :: r' =>
      match s with
      | c :: s' => if p c then option_map S (match_here r' s') else None
      | [] => None
      end
  | Opt p :: r' =>
      match s with
      | c :: s' =>
          if p c then
            match match_here r' s' with
            | Some n => Some (S n)
            | None => match_here r' s
            end
          else match_here r' s
      | [] => match_here r' []
      end
  | Star p :: r' => star_k p (match_here r') s
  | Plus p :: r' =>
      match s with
      | c :: s' => if p c then option_map S (star_k p (match_here r') s') else None
      | [] => None
      end
  end.

(** [re.search(r, s)]: the leftmost match, as (text before, matched text). *)
Fixpoint search_from (r : regex) (before : str) (s : str) : option (str * str) :=
  match match_here r s with
  | Some n => Some (rev before, firstn n s)
  | None =>
      match s with
      | [] => None
      | c :: s' => search_from r (c :: before) s'
      end
  end.

Definition search (r : regex) (s : str) : option (str * str) :=
  search_from r [] s.

(** [m.group(0)] *)
Definition group0 (m : str * str) : str := snd m.

Definition is_char (c : char) : char -> bool := fun x => (x =? c)%N.

End Re.

(** ** Exceptions and outcomes *)

Inductive exn :=
| NoSuchElementException
| TimeoutException
| StaleElementReferenceException
| WebDriverException
| ValueError
| IndexError
| TypeError
| OSError
| KeyboardInterrupt.

(** [isinstance(e, Exception)]: what [except Exception] catches. *)
Definition is_Exception (e : exn) : bool :=
  match e with
  | KeyboardInterrupt => false
  | _ => true
  end.

(** What evaluating a piece of the program gives: a value, a raised
    exception, or no answer (a loop out of fuel, a call that never
    returns). *)
Inductive outcome (A : Type) :=
| Ok (a : A)
| Raise (e : exn)
| Diverge.

Arguments Ok {A} a.
Arguments Raise {A} e.
Arguments Diverge {A}.

Definition obind {A B} (m : outcome A) (k : A -> outcome B) : outcome B :=
  match m with
  | Ok a => k a
  | Raise e => Raise e
  | Diverge => Diverge
  end.

(** [try: m  except Exception: h] *)
Definition otry {A} (m : outcome A) (h : outcome A) : outcome A :=
  match m with
  | Raise e => if is_Exception e then h else Raise e
  | _ => m
  end.

Definition of_option {A} (e : exn) (o : option A) : outcome A :=
  match o with
  | Some a => Ok a
  | None => Raise e
  end.

Declare Scope out_scope.
Delimit Scope out_scope with out.
Notation "x <- m ;; k" := (obind m (fun x => k))
  (at level 61, m at next level, right associativity) : out_scope.

(** ** Records of the output document *)

Record Product := { p_title : Py.str; p_price : Py.str }.
Record Review := { r_date : Py.str; r_text : Py.str; r_rating : Z }.
Record Testimonial := { t_text : Py.str; t_rating : Z }.

Record Document := {
  products : list Product;
  reviews : list Review;
  testimonials : list Testimonial
}.

(** ** The browser

    A [WebElement] is what the program can observe of a DOM node it was
    handed: the result of reading [.text], the number of nodes that
    [find_elements(By.XPATH, ".//*[local-name()='path' and
    @fill='#ffce31']")] finds below it, and the result of
    [.is_displayed()]; each either answers or raises.  The program reads
    each of them at most once per handle, so a handle can be taken as the
    record of these three answers. *)

Record WebElement := {
  text : outcome Py.str;
  star_paths : outcome nat;
  is_displayed : outcome bool
}.

Inductive By := ID | XPATH | CLASS_NAME | CSS_SELECTOR.

Inductive event :=
| EvStart
| EvGet (url : Py.str)
| EvFindAll (by_ : By) (value : Py.str)
| EvFindOne (by_ : By) (value : Py.str)
| EvScript (script : Py.str)
| EvWait (count_before : nat)
| EvSleep (seconds : nat)
| EvQuit
| EvDump (file : Py.str) (doc : Document).

(** The calls the source makes on the outside world [W]: the driver, the
    clock and the file system.  Each may raise and may change the world. *)
Class Driver (W : Type) := {
  (** [webdriver.Chrome(service=Service(ChromeDriverManager().install()))] *)
  drv_start : W -> outcome unit * W;
  (** [driver.get(url)] *)
  drv_get : Py.str -> W -> outcome unit * W;
  (** [driver.find_elements(by, value)] *)
  drv_find_elements : By -> Py.str -> W -> outcome (list WebElement) * W;
  (** [driver.find_element(by, value)] *)
  drv_find_element : By -> Py.str -> W -> outcome WebElement * W;
  (** [driver.execute_script(script, *args)]; the value is an integer or null *)
  drv_execute_script : Py.str -> list WebElement -> W -> outcome (option Z) * W;
  (** [WebDriverWait(driver, 10).until(lambda d:
        len(d.find_elements(By.CLASS_NAME, "review")) > count_before)] *)
  drv_wait_until_more : nat -> W -> outcome unit * W;
  (** [driver.quit()] *)
  drv_quit : W -> outcome unit * W;
  (** [time.sleep(seconds)] *)
  os_sleep : nat -> W -> outcome unit * W;
  (** [with open(file, "w", encoding="utf-8") as f: json.dump(doc, f, ...)] *)
  os_dump : Py.str -> Document -> W -> outcome unit * W
}.

(** Computations on the world, with the trace of the calls they made. *)
Definition M (W A : Type) : Type := W -> outcome A * W * list event.

Definition ret {W A} (a : A) : M W A := fun w => (Ok a, w, []).

Definition bind {W A B} (m : M W A) (k : A -> M W B) : M W B :=
  fun w =>
    match m w with
    | (Ok a, w1, ev1) => let '(r, w2, ev2) := k a w1 in (r, w2, ev1 ++ ev2)
    | (Raise e, w1, ev1) => (Raise e, w1, ev1)
    | (Diverge, w1, ev1) => (Diverge, w1, ev1)
    end.

Definition lift {W A} (o : outcome A) : M W A := fun w => (o, w, []).

Definition diverge {W A} : M W A := fun w => (Diverge, w, []).

Definition call {W A} (ev : event) (f : W -> outcome A * W) : M W A :=
  fun w => let '(r, w') := f w in (r, w', [ev]).

(** [try: m  except Exception: h] *)
Definition try_except {W A} (m : M W A) (h : M W A) : M W A :=
  fun w =>
    match m w with
    | (Raise e, w1, ev1) =>
        if is_Exception e
        then let '(r, w2, ev2) := h w1 in (r, w2, ev1 ++ ev2)
        else (Raise e, w1, ev1)
    | x => x
    end.

(** [try: m  finally: fin] *)
Definition try_finally {W A} (m : M W A) (fin : M W unit) : M W A :=
  fun w =>
    match m w with
    | (Ok a, w1, ev1) =>
        match fin w1 with
        | (Ok _, w2, ev2) => (Ok a, w2, ev1 ++ ev2)
        | (Raise e', w2, ev2) => (Raise e', w2, ev1 ++ ev2)
        | (Diverge, w2, ev2) => (Diverge, w2, ev1 ++ ev2)
        end
    | (Raise e, w1, ev1) =>
        match fin w1 with
        | (Ok _, w2, ev2) => (Raise e, w2, ev1 ++ ev2)
        | (Raise e', w2, ev2) => (Raise e', w2, ev1 ++ ev2)
        | (Diverge, w2, ev2) => (Diverge, w2, ev1 ++ ev2)
        end
    | (Diverge, w1, ev1) => (Diverge, w1, ev1)
    end.

Declare Scope M_scope.
Delimit Scope M_scope with M.
Notation "x <- m ;; k" := (bind m (fun x => k))
  (at level 61, m at next level, right associativity) : M_scope.
Notation "m ;;; k" := (bind m (fun _ => k))
  (at level 61, right associativity) : M_scope.

(** ** The scraper *)

Module Scraper.
Import Py Re.

Open Scope out_scope.

(** [x or y] on integers *)
Definition int_or (x y : Z) : Z := if (x =? 0)%Z then y else x.

(** Truth value of a string *)
Definition truthy (s : str) : bool :=
  match s with
  | [] => false
  | _ => true
  end.

Definition extract_star_rating (container : WebElement) : outcome Z :=
  otry (stars <- star_paths container ;;
        Ok (Z.min (Z.of_nat stars) 5))
       (Ok 0%Z).

(** What a [for] body asks of its loop. *)
Inductive flow (A : Type) :=
| Next (a : A)
| Break (a : A).

Arguments Next {A} a.
Arguments Break {A} a.

Definition dollar : char := 36%N.
Definition pound : char := 163%N.
Definition euro : char := 8364%N.
Definition dot : char := 46%N.

Definition is_currency (c : char) : bool :=
  ((c =? dollar) || (c =? euro) || (c =? pound))%N.

Definition products_selector : str := lit "div.product-item, div[class*='product']".
Definition testimonials_selector : str := lit "div[class*='testimonial']".
Definition reviews_url : str := lit "https://web-scraping.dev/reviews".
Definition testimonials_url : str := lit "https://web-scraping.dev/testimonials".
Definition scroll_script : str :=
  lit "window.scrollTo(0, document.body.scrollHeight);".
Definition height_script : str := lit "return document.body.scrollHeight".
Definition click_script : str := lit "arguments[0].click();".
Definition output_file : str := lit "scraped_data.json".

(** f"https://web-scraping.dev/products?page={page_index}" *)
Definition products_url (page_index : nat) : str :=
  lit "https://web-scraping.dev/products?page=" ++ str_of_nat page_index.

Definition value_eqb (a b : option Z) : bool :=
  match a, b with
  | Some x, Some y => (x =? y)%Z
  | None, None => true
  | _, _ => false
  end.

Section WithUnicode.
Context {U : Unicode}.

(** r'[$€£]?\s*\d+\.\d{2}' *)
Definition price_re : regex :=
  [Opt is_currency; Star isspace; Plus isdigit; One (is_char dot);
   One isdigit; One isdigit].

(** r"(20\d{2})" *)
Definition year_re : regex :=
  [One (is_char 50%N); One (is_char 48%N); One isdigit; One isdigit].

(** *** Products *)

(** Title of a card: first line of its stripped text. *)
Definition card_title (raw_text : str) : outcome str :=
  of_option IndexError (hd_error (split_lines raw_text)).

Definition card_price (raw_text : str) : str :=
  match search price_re raw_text with
  | Some price_match => group0 price_match
  | None => lit "N/A"
  end.

Definition title_taken (products : list Product) (title : str) : bool :=
  existsb (fun p => str_eqb (p_title p) title) products.

(** Body of [for card in product_cards], on [(products, newly_added)]. *)
Definition product_card (card : WebElement) (st : list Product * nat)
  : outcome (list Product * nat) :=
  let '(products, newly_added) := st in
  otry (t <- text card ;;
        let raw_text := strip t in
        title <- card_title raw_text ;;
        let price := card_price raw_text in
        if truthy title && negb (str_eqb (lower title) (lit "log in")) then
          if negb (title_taken products title) then
            Ok (products ++ [{| p_title := title; p_price := price |}],
                S newly_added)
          else Ok st
        else Ok st)
       (Ok st).

Fixpoint product_cards_loop (cards : list WebElement) (st : list Product * nat)
  : outcome (list Product * nat) :=
  match cards with
  | [] => Ok st
  | card :: rest =>
      st' <- product_card card st ;;
      product_cards_loop rest st'
  end.

(** *** Reviews *)

(** The inner [for line in lines], giving [(review_year, review_date)]. *)
Fixpoint find_date (lines : list str) : outcome (option Z * option str) :=
  match lines with
  | [] => Ok (None, None)
  | line :: rest =>
      match search year_re line with
      | Some year_match =>
          review_year <- of_option ValueError (int (group0 year_match)) ;;
          Ok (Some review_year, Some line)
      | None => find_date rest
      end
  end.

Definition text_taken (reviews_data : list Review) (review_text : str) : bool :=
  existsb (fun r => str_eqb (r_text r) review_text) reviews_data.

(** Body of [for block in review_blocks]; [Break] sets
    [reached_old_reviews]. *)
Definition review_block (block : WebElement) (reviews_data : list Review)
  : outcome (flow (list Review)) :=
  otry (t <- text block ;;
        let lines := split_lines (strip t) in
        found <- find_date lines ;;
        match snd found with
        | None => Ok (Next reviews_data)
        | Some review_date =>
            if negb (truthy review_date) then Ok (Next reviews_data)
            else
              review_year <- of_option TypeError (fst found) ;;
              if (review_year <? 2023)%Z then Ok (Break reviews_data)
              else
                review_text <- of_option ValueError (max_by_len lines) ;;
                stars <- extract_star_rating block ;;
                let rating := int_or stars 5 in
                if negb (text_taken reviews_data review_text) then
                  Ok (Next (reviews_data ++
                            [{| r_date := review_date;
                                r_text := review_text;
                                r_rating := rating |}]))
                else Ok (Next reviews_data)
        end)
       (Ok (Next reviews_data)).

(** The [for] over the blocks: the list and [reached_old_reviews]. *)
Fixpoint review_blocks_loop (blocks : list WebElement) (reviews_data : list Review)
  : outcome (list Review * bool) :=
  match blocks with
  | [] => Ok (reviews_data, false)
  | block :: rest =>
      f <- review_block block reviews_data ;;
      match f with
      | Next reviews_data' => review_blocks_loop rest reviews_data'
      | Break reviews_data' => Ok (reviews_data', true)
      end
  end.

(** *** Testimonials *)

Definition testimonial_taken (testimonials : list Testimonial) (t : str) : bool :=
  existsb (fun x => str_eqb (t_text x) t) testimonials.

Definition is_boilerplate (t : str) : bool :=
  contains (lit "Take a look") t || contains (lit "collection") t.

(** Body of [for card in cards]. *)
Definition testimonial_card (card : WebElement) (testimonials : list Testimonial)
  : outcome (list Testimonial) :=
  otry (raw <- text card ;;
        let t := strip (replace_newlines raw) in
        if is_boilerplate t
           || (length t <? 10)%nat
           || (400 <? length t)%nat
        then Ok testimonials
        else if negb (testimonial_taken testimonials t) then
          stars <- extract_star_rating card ;;
          Ok (testimonials ++ [{| t_text := t; t_rating := int_or stars 5 |}])
        else Ok testimonials)
       (Ok testimonials).

Fixpoint testimonial_cards_loop (cards : list WebElement)
  (testimonials : list Testimonial) : outcome (list Testimonial) :=
  match cards with
  | [] => Ok testimonials
  | card :: rest =>
      testimonials' <- testimonial_card card testimonials ;;
      testimonial_cards_loop rest testimonials'
  end.

Close Scope out_scope.

(** *** The passes on the browser *)

Section WithDriver.
Context {W : Type} {D : Driver W}.

Open Scope M_scope.

Definition start : M W unit := call EvStart drv_start.
Definition get (url : str) : M W unit := call (EvGet url) (drv_get url).
Definition find_elements (by_ : By) (value : str) : M W (list WebElement) :=
  call (EvFindAll by_ value) (drv_find_elements by_ value).
Definition find_element (by_ : By) (value : str) : M W WebElement :=
  call (EvFindOne by_ value) (drv_find_element by_ value).
Definition execute_script (script : str) (args : list WebElement)
  : M W (option Z) :=
  call (EvScript script) (drv_execute_script script args).
Definition wait_until_more (count_before : nat) : M W unit :=
  call (EvWait count_before) (drv_wait_until_more count_before).
Definition quit : M W unit := call EvQuit drv_quit.
Definition sleep (seconds : nat) : M W unit :=
  call (EvSleep seconds) (os_sleep seconds).
Definition dump (file : str) (doc : Document) : M W unit :=
  call (EvDump file doc) (os_dump file doc).

Definition init_browser : M W unit := start.

(** The [while True] of [collect_products]. *)
Fixpoint products_loop (fuel : nat) (page_index : nat) (products : list Product)
  : M W (list Product) :=
  match fuel with
  | O => diverge
  | S fuel' =>
      get (products_url page_index) ;;;
      sleep 1 ;;;
      product_cards <- find_elements CSS_SELECTOR products_selector ;;
      match product_cards with
      | [] => ret products
      | _ :: _ =>
          st <- lift (product_cards_loop product_cards (products, 0)) ;;
          if (snd st =? 0)%nat then ret (fst st)
          else products_loop fuel' (S page_index) (fst st)
      end
  end.

Definition collect_products (fuel : nat) : M W (list Product) :=
  products_loop fuel 1 [].

(** The [try] around the load-more button: [true] to loop again,
    [false] for [break]. *)
Definition load_more_step (count_before : nat) : M W bool :=
  try_except
    (load_more <- find_element ID (lit "page-load-more") ;;
     shown <- lift (is_displayed load_more) ;;
     if negb shown then ret false
     else
       execute_script click_script [load_more] ;;;
       wait_until_more count_before ;;;
       sleep 1 ;;;
       ret true)
    (ret false).

(** The [while not reached_old_reviews] of [collect_reviews]. *)
Fixpoint reviews_loop (fuel : nat) (reviews_data : list Review)
  : M W (list Review) :=
  match fuel with
  | O => diverge
  | S fuel' =>
      review_blocks <- find_elements CLASS_NAME (lit "review") ;;
      st <- lift (review_blocks_loop review_blocks reviews_data) ;;
      if (snd st : bool) then ret (fst st)
      else
        execute_script scroll_script [] ;;;
        sleep 1 ;;;
        again <- load_more_step (length review_blocks) ;;
        if (again : bool) then reviews_loop fuel' (fst st) else ret (fst st)
  end.

Definition collect_reviews (fuel : nat) : M W (list Review) :=
  get reviews_url ;;;
  sleep 2 ;;;
  reviews_loop fuel [].

(** The [while True] of [collect_testimonials]. *)
Fixpoint scroll_loop (fuel : nat) (last_height : option Z) : M W unit :=
  match fuel with
  | O => diverge
  | S fuel' =>
      execute_script scroll_script [] ;;;
      sleep 2 ;;;
      new_height <- execute_script height_script [] ;;
      if value_eqb new_height last_height then ret tt
      else scroll_loop fuel' new_height
  end.

Definition collect_testimonials (fuel : nat) : M W (list Testimonial) :=
  get testimonials_url ;;;
  sleep 2 ;;;
  last_height <- execute_script height_script [] ;;
  scroll_loop fuel last_height ;;;
  cards <- find_elements CSS_SELECTOR testimonials_selector ;;
  lift (testimonial_cards_loop cards []).

(** The body of the [try] of [run_scraper]. *)
Definition collect_all (fuel : nat) : M W Document :=
  ps <- collect_products fuel ;;
  rs <- collect_reviews fuel ;;
  ts <- collect_testimonials fuel ;;
  ret {| products := ps; reviews := rs; testimonials := ts |}.

Definition run_scraper (fuel : nat) : M W unit :=
  init_browser ;;;
  results <- try_finally (collect_all fuel) quit ;;
  dump output_file results.

Close Scope M_scope.

End WithDriver.
End WithUnicode.
End Scraper.

(** ** A scripted site

    A world whose pages are fixed lists of elements, to run the passes
    on concrete data: numbered product pages, review blocks that grow
    with each click on the load-more button, and a testimonial page that
    grows with each scroll. *)

Module Fixture.
Import Py Scraper.

(** An interpreter that knows ASCII only. *)
#[export] Instance ascii_tables : Unicode := {|
  uni_isspace := fun _ => false;
  uni_decimal := fun _ => None;
  uni_lower := fun s => s;
  uni_decimal_lt := fun c d (H : None = Some d) =>
    match H in _ = o return match o with Some _ => (d < 10)%N | None => True end
    with eq_refl => I end
|}.

Record Site := {
  product_pages : list (list WebElement);
  review_loads : list (list WebElement);
  testimonial_cards : list WebElement;
  heights : list Z
}.

Record Browser := {
  site : Site;
  location : str;
  clicks : nat;
  scrolls : nat
}.

(** The lines of a text, joined by newlines. *)
Fixpoint joined (ls : list string) : str :=
  match ls with
  | [] => []
  | [l] => lit l
  | l :: ls' => lit l ++ newline :: joined ls'
  end.

Local Open Scope string_scope.

Definition element (ls : list string) (stars : nat) : WebElement :=
  {| text := Ok (joined ls); star_paths := Ok stars; is_displayed := Ok true |}.

Definition open_at (s : Site) : Browser :=
  {| site := s; location := []; clicks := 0; scrolls := 0 |}.

Definition numbered (pages : list (list WebElement)) : list (str * list WebElement) :=
  combine (map products_url (seq 1 (length pages))) pages.

Definition page_at (b : Browser) : list WebElement :=
  match find (fun p => str_eqb (fst p) (location b)) (numbered (product_pages (site b))) with
  | Some p => snd p
  | None => []
  end.

Definition loaded_reviews (b : Browser) : list WebElement :=
  concat (firstn (S (clicks b)) (review_loads (site b))).

Definition fx_get (url : str) (b : Browser) : outcome unit * Browser :=
  (Ok tt, {| site := site b; location := url; clicks := 0; scrolls := 0 |}).

Definition fx_find_elements (by_ : By) (value : str) (b : Browser)
  : outcome (list WebElement) * Browser :=
  match by_ with
  | CSS_SELECTOR =>
      if str_eqb value products_selector then (Ok (page_at b), b)
      else if str_eqb value testimonials_selector
           then (Ok (testimonial_cards (site b)), b)
           else (Ok [], b)
  | CLASS_NAME => (Ok (loaded_reviews b), b)
  | _ => (Ok [], b)
  end.

Definition fx_find_element (by_ : By) (value : str) (b : Browser)
  : outcome WebElement * Browser :=
  if (S (clicks b) <? length (review_loads (site b)))%nat
  then (Ok (element ["Load more"] 0), b)
  else (Raise NoSuchElementException, b).

Definition fx_execute_script (script : str) (args : list WebElement) (b : Browser)
  : outcome (option Z) * Browser :=
  if str_eqb script click_script then
    (Ok None, {| site := site b; location := location b;
                 clicks := S (clicks b); scrolls := scrolls b |})
  else if str_eqb script scroll_script then
    (Ok None, {| site := site b; location := location b;
                 clicks := clicks b; scrolls := S (scrolls b) |})
  else
    (Ok (Some (nth (scrolls b) (heights (site b)) (last (heights (site b)) 0%Z))), b).

Definition fx_wait_until_more (count_before : nat) (b : Browser)
  : outcome unit * Browser :=
  if (count_before <? length (loaded_reviews b))%nat then (Ok tt, b)
  else (Raise TimeoutException, b).

#[export] Instance scripted : Driver Browser := {|
  drv_start := fun b => (Ok tt, b);
  drv_get := fx_get;
  drv_find_elements := fx_find_elements;
  drv_find_element := fx_find_element;
  drv_execute_script := fx_execute_script;
  drv_wait_until_more := fx_wait_until_more;
  drv_quit := fun b => (Ok tt, b);
  os_sleep := fun _ b => (Ok tt, b);
  os_dump := fun _ _ b => (Ok tt, b)
|}.

(** A browser whose driver dies on the first [find_elements]. *)
#[export] Instance dying : Driver unit := {|
  drv_start := fun b => (Ok tt, b);
  drv_get := fun _ b => (Ok tt, b);
  drv_find_elements := fun _ _ b => (Raise WebDriverException, b);
  drv_find_element := fun _ _ b => (Raise WebDriverException, b);
  drv_execute_script := fun _ _ b => (Raise WebDriverException, b);
  drv_wait_until_more := fun _ b => (Raise WebDriverException, b);
  drv_quit := fun b => (Ok tt, b);
  os_sleep := fun _ b => (Ok tt, b);
  os_dump := fun _ _ b => (Ok tt, b)
|}.

Definition shop : Site := {|
  product_pages :=
    [ [element ["Log in"] 0;
       element ["Box of Chocolate"; "$24.99"] 0;
       element ["Dark Red Potion"; "$4.99"] 0];
      [element ["Teal Potion"; "$4.99 in stock"] 0;
       element ["Dark Red Potion"; "$4.99"] 0;
       element ["Hat"; "out of stock"] 0];
      [element ["Hat"; "out of stock"] 0;
       element ["Teal Potion"; "$4.99 in stock"] 0] ];
  review_loads :=
    [ [element ["2023-05-18"; "Great value, tasty chocolate"] 5;
       element ["2023-02-02"; "Arrived late"] 2];
      [element ["2022-11-10"; "Would buy again"] 0;
       element ["2023-01-01"; "After the cutoff block"] 4];
      [element ["2021-01-01"; "Never loaded"] 1] ];
  testimonial_cards :=
    [ element ["Great shop"] 4;
      element ["Too short"] 5;
      element ["Take a look at our collection"] 0;
      element ["We love this product"; "and use it every day"] 0;
      element ["Great shop"] 3 ];
  heights := [1000; 2000; 2000]%Z
|}.

(** Two product cards, one priced and one not. *)
Definition widgets : Site := {|
  product_pages :=
    [ [element ["Widget"; "out of stock"] 0;
       element ["Gadget"; "$12.99 in stock"] 0] ];
  review_loads := [];
  testimonial_cards := [];
  heights := []
|}.

(** Two review blocks, the second older than the cutoff. *)
Definition two_reviews : Site := {|
  product_pages := [];
  review_loads := [ [element ["Jan 2023"] 0; element ["Dec 2022"] 0] ];
  testimonial_cards := [];
  heights := []
|}.

(** One load of recent reviews and no load-more control. *)
Definition quiet : Site := {|
  product_pages := [];
  review_loads := [ [element ["2023-05-18"; "Great value, tasty chocolate"] 5] ];
  testimonial_cards := [];
  heights := []
|}.

(** The browser of [s] on its reviews page. *)
Definition on_reviews (s : Site) : Browser :=
  {| site := s; location := reviews_url; clicks := 0; scrolls := 0 |}.

(** The browser of [s] on its testimonials page, scrolled [n] times. *)
Definition on_testimonials (s : Site) (n : nat) : Browser :=
  {| site := s; location := testimonials_url; clicks := 0; scrolls := n |}.

(** The browser of [s] on product page [n]. *)
Definition on_page (s : Site) (n : nat) : Browser :=
  {| site := s; location := products_url n; clicks := 0; scrolls := 0 |}.

(** What the passes return on [shop]. *)
Definition shop_products : list Product :=
  [ {| p_title := lit "Box of Chocolate"; p_price := lit "$24.99" |};
    {| p_title := lit "Dark Red Potion"; p_price := lit "$4.99" |};
    {| p_title := lit "Teal Potion"; p_price := lit "$4.99" |};
    {| p_title := lit "Hat"; p_price := lit "N/A" |} ].

Definition shop_reviews : list Review :=
  [ {| r_date := lit "2023-05-18"; r_text := lit "Great value, tasty chocolate";
       r_rating := 5 |};
    {| r_date := lit "2023-02-02"; r_text := lit "Arrived late"; r_rating := 2 |} ].

Definition shop_testimonials : list Testimonial :=
  [ {| t_text := lit "Great shop"; t_rating := 4 |};
    {| t_text := lit "We love this product and use it every day"; t_rating := 5 |} ].

(** Three product pages showing the same card. *)
Definition repeats : Site := {|
  product_pages :=
    [ [element ["Widget"; "$1.00"] 0];
      [element ["Widget"; "$1.00"] 0];
      [element ["Widget"; "$1.00"] 0] ];
  review_loads := [];
  testimonial_cards := [];
  heights := []
|}.

(** Three product pages, the first showing only the log-in link. *)
Definition login_first : Site := {|
  product_pages :=
    [ [element ["Log in"] 0];
      [element ["Widget"; "$1.00"] 0];
      [element ["Widget"; "$1.00"] 0] ];
  review_loads := [];
  testimonial_cards := [];
  heights := []
|}.

(** The browser of [s] once it has been quit. *)
Definition closed (s : Site) : Browser :=
  {| site := s; location := lit "closed"; clicks := 0; scrolls := 0 |}.

(** The scripted browser, with a [driver.quit()] that leaves it closed. *)
Definition closing : Driver Browser := {|
  drv_start := fun b => (Ok tt, b);
  drv_get := fx_get;
  drv_find_elements := fx_find_elements;
  drv_find_element := fx_find_element;
  drv_execute_script := fx_execute_script;
  drv_wait_until_more := fx_wait_until_more;
  drv_quit := fun b => (Ok tt, closed (site b));
  os_sleep := fun _ b => (Ok tt, b);
  os_dump := fun _ _ b => (Ok tt, b)
|}.

(** A browser that loads pages but dies on every lookup, and can still
    be quit. *)
Definition crashing : Driver Browser := {|
  drv_start := fun b => (Ok tt, b);
  drv_get := fx_get;
  drv_find_elements := fun _ _ b => (Raise WebDriverException, b);
  drv_find_element := fun _ _ b => (Raise WebDriverException, b);
  drv_execute_script := fx_execute_script;
  drv_wait_until_more := fx_wait_until_more;
  drv_quit := fun b => (Ok tt, closed (site b));
  os_sleep := fun _ b => (Ok tt, b);
  os_dump := fun _ _ b => (Ok tt, b)
|}.

(** The scripted browser, except that [driver.quit()] raises. *)
Definition fragile : Driver Browser := {|
  drv_start := fun b => (Ok tt, b);
  drv_get := fx_get;
  drv_find_elements := fx_find_elements;
  drv_find_element := fx_find_element;
  drv_execute_script := fx_execute_script;
  drv_wait_until_more := fx_wait_until_more;
  drv_quit := fun b => (Raise WebDriverException, b);
  os_sleep := fun _ b => (Ok tt, b);
  os_dump := fun _ _ b => (Ok tt, b)
|}.

(** A machine on which Chrome cannot be started. *)
Definition no_chrome : Driver Browser := {|
  drv_start := fun b => (Raise WebDriverException, b);
  drv_get := fx_get;
  drv_find_elements := fx_find_elements;
  drv_find_element := fx_find_element;
  drv_execute_script := fx_execute_script;
  drv_wait_until_more := fx_wait_until_more;
  drv_quit := fun b => (Ok tt, b);
  os_sleep := fun _ b => (Ok tt, b);
  os_dump := fun _ _ b => (Ok tt, b)
|}.

Definition shop_document : Document :=
  {| products := shop_products; reviews := shop_reviews;
     testimonials := shop_testimonials |}.

End Fixture.

(** ** Specification-side notions *)

Module Spec.
Import Py Re Scraper.

(** The strings a pattern denotes. *)
Inductive item_lang : item -> str -> Prop :=
| lang_one p c : p c = true -> item_lang (One p) [c]
| lang_opt_none p : item_lang (Opt p) []
| lang_opt_some p c : p c = true -> item_lang (Opt p) [c]
| lang_star p m : forallb p m = true -> item_lang (Star p) m
| lang_plus p c m : p c = true -> forallb p m = true -> item_lang (Plus p) (c :: m).

Inductive lang : regex -> str -> Prop :=
| lang_nil : lang [] []
| lang_cons i r m1 m2 : item_lang i m1 -> lang r m2 -> lang (i :: r) (m1 ++ m2).

(** [t] has a substring with property [P]. *)
Definition has_substring (P : str -> Prop) (t : str) : Prop :=
  exists pre m post, t = pre ++ m ++ post /\ P m.

Section WithUnicode.
Context {U : Unicode}.

(** An optional currency symbol, digits, a decimal point, two digits. *)
Definition price_shape (m : str) : Prop :=
  exists cur ds a b,
    m = cur ++ ds ++ [dot; a; b] /\
    (cur = [] \/ exists c, cur = [c] /\ is_currency c = true) /\
    ds <> [] /\ forallb isdigit ds = true /\
    isdigit a = true /\ isdigit b = true.

(** '20' followed by two digits. *)
Definition year_token (m : str) : Prop :=
  exists a b, m = [50; 48; a; b]%N /\ isdigit a = true /\ isdigit b = true.

(** The year a line shows: its leftmost year token, read as a number. *)
Definition line_year (line : str) : option Z :=
  match search year_re line with
  | Some m => int (group0 m)
  | None => None
  end.

(** The year of a block, when its text can be read and shows one. *)
Definition block_year (block : WebElement) : option Z :=
  match text block with
  | Ok t =>
      match find_date (split_lines (strip t)) with
      | Ok (Some y, _) => Some y
      | _ => None
      end
  | _ => None
  end.

(** The rating the source derives from the star lookup of an element. *)
Definition rating_of (stars : outcome nat) : Z :=
  match stars with
  | Ok O => 5%Z
  | Ok n => Z.min (Z.of_nat n) 5
  | _ => 5%Z
  end.

(** An exception that [except Exception] lets through, or no answer. *)
Definition escapes {A} (o : outcome A) : Prop :=
  match o with
  | Ok _ => False
  | Raise e => is_Exception e = false
  | Diverge => True
  end.

(** What one review block can do to the list. *)
Inductive review_step (block : WebElement) (acc : list Review)
  : outcome (flow (list Review)) -> Prop :=
| rs_skip : review_step block acc (Ok (Next acc))
| rs_accept r y t :
    text block = Ok t ->
    find_date (split_lines (strip t)) = Ok (Some y, Some (r_date r)) ->
    max_by_len (split_lines (strip t)) = Some (r_text r) ->
    text_taken acc (r_text r) = false ->
    block_year block = Some y -> line_year (r_date r) = Some y ->
    (2023 <= y)%Z ->
    r_rating r = rating_of (star_paths block) ->
    review_step block acc (Ok (Next (acc ++ [r])))
| rs_cutoff y :
    block_year block = Some y -> (y < 2023)%Z ->
    review_step block acc (Ok (Break acc))
| rs_escape o : escapes o -> review_step block acc o.

(** The record a product card stands for, when it has a usable title. *)
Definition candidate (card : WebElement) : option Product :=
  match text card with
  | Ok t =>
      match hd_error (split_lines (strip t)) with
      | Some title =>
          if truthy title && negb (str_eqb (lower title) (lit "log in"))
          then Some {| p_title := title; p_price := card_price (strip t) |}
          else None
      | None => None
      end
  | _ => None
  end.

(** The titles a page offers, card by card. *)
Definition titles (page : list WebElement) : list str :=
  flat_map (fun card => match candidate card with
                        | Some p => [p_title p]
                        | None => []
                        end) page.

(** Reading the text of every card answers or raises an [Exception]. *)
Definition readable (page : list WebElement) : Prop :=
  Forall (fun card => ~ escapes (text card)) page.

(** What one product card can do to [(products, newly_added)]. *)
Definition product_step (card : WebElement) (st : list Product * nat)
  : list Product * nat :=
  match candidate card with
  | Some p =>
      if title_taken (fst st) (p_title p) then st
      else (fst st ++ [p], S (snd st))
  | None => st
  end.

(** What one testimonial card can do to the list. *)
Inductive testimonial_step (card : WebElement) (acc : list Testimonial)
  : outcome (list Testimonial) -> Prop :=
| ts_skip : testimonial_step card acc (Ok acc)
| ts_accept x raw :
    text card = Ok raw ->
    t_text x = strip (replace_newlines raw) ->
    testimonial_taken acc (t_text x) = false ->
    is_boilerplate (t_text x) = false ->
    (10 <= length (t_text x) <= 400)%nat ->
    t_rating x = rating_of (star_paths card) ->
    testimonial_step card acc (Ok (acc ++ [x]))
| ts_escape o : escapes o -> testimonial_step card acc o.

(** The three lists as the passes keep them. *)
Definition review_ok (acc : list Review) : Prop :=
  NoDup (map r_text acc) /\
  Forall (fun r => exists y, line_year (r_date r) = Some y /\ (2023 <= y)%Z) acc /\
  Forall (fun r => (1 <= r_rating r <= 5)%Z) acc.

Definition testimonial_ok (acc : list Testimonial) : Prop :=
  NoDup (map t_text acc) /\
  Forall (fun x => (10 <= length (t_text x) <= 400)%nat /\
                   is_boilerplate (t_text x) = false) acc /\
  Forall (fun x => (1 <= t_rating x <= 5)%Z) acc.

End WithUnicode.

(** Every normal return of [m] satisfies [P]. *)
Definition returns {W A} (m : M W A) (P : A -> Prop) : Prop :=
  forall w a w' evs, m w = (Ok a, w', evs) -> P a.

(** Every call [m] makes satisfies [P]. *)
Definition emits {W A} (m : M W A) (P : event -> Prop) : Prop :=
  forall w r w' evs, m w = (r, w', evs) -> Forall P evs.

(** From [w], fetching product page [n] answers with [page]. *)
Definition serves {W} {D : Driver W}
  (w : W) (n : nat) (page : list WebElement) (w' : W) : Prop :=
  exists w1 w2,
    drv_get (products_url n) w = (Ok tt, w1) /\
    os_sleep 1 w1 = (Ok tt, w2) /\
    drv_find_elements CSS_SELECTOR products_selector w2 = (Ok page, w').

(** The calls of one page fetch. *)
Definition fetch_events (n : nat) : list event :=
  [EvGet (products_url n); EvSleep 1; EvFindAll CSS_SELECTOR products_selector].

Definition is_dump (ev : event) : bool :=
  match ev with
  | EvDump _ _ => true
  | _ => false
  end.

Definition is_quit (ev : event) : bool :=
  match ev with
  | EvQuit => true
  | _ => false
  end.

Section MoreNotions.
Context {U : Unicode}.

(** The records the cards of a page stand for, card by card. *)
Definition candidates (page : list WebElement) : list Product :=
  flat_map (fun card => match candidate card with
                        | Some p => [p]
                        | None => []
                        end) page.

(** Of a sequence of records, the first of each title not among [seen]. *)
Fixpoint keep_first (seen : list str) (cands : list Product) : list Product :=
  match cands with
  | [] => []
  | p :: rest =>
      if existsb (str_eqb (p_title p)) seen then keep_first seen rest
      else p :: keep_first (seen ++ [p_title p]) rest
  end.

(** What every product record of the pass looks like. *)
Definition product_ok (p : Product) : Prop :=
  p_title p <> [] /\
  ~ In newline (p_title p) /\
  (forall c rest, p_title p = c :: rest -> isspace c = false) /\
  lower (p_title p) <> lit "log in" /\
  (p_price p = lit "N/A" \/ lang price_re (p_price p)).

(** An element whose lookups answer or raise an [Exception]. *)
Definition tame (e : WebElement) : Prop :=
  ~ escapes (text e) /\ ~ escapes (star_paths e).

(** A string without newline and without whitespace at either end. *)
Definition trimmed_line (s : str) : Prop :=
  ~ In newline s /\
  (forall c rest, s = c :: rest -> isspace c = false) /\
  (forall c front, s = front ++ [c] -> isspace c = false).

(** The two strings of a review record: lines of one block, the date
    not empty and no longer than the text. *)
Definition review_shape (r : Review) : Prop :=
  r_date r <> [] /\
  ~ In newline (r_date r) /\
  ~ In newline (r_text r) /\
  (length (r_date r) <= length (r_text r))%nat.

Definition document_ok (doc : Document) : Prop :=
  NoDup (map p_title (products doc)) /\
  Forall product_ok (products doc) /\
  review_ok (reviews doc) /\
  Forall review_shape (reviews doc) /\
  testimonial_ok (testimonials doc) /\
  Forall (fun x => trimmed_line (t_text x)) (testimonials doc).

End MoreNotions.

(** The URLs a trace fetched, in order. *)
Fixpoint gets (evs : list event) : list str :=
  match evs with
  | [] => []
  | EvGet url :: evs' => url :: gets evs'
  | _ :: evs' => gets evs'
  end.


(** The calls on the driver and the clock of one turn of the review loop
    that loads more. *)
Definition load_round (count_before : nat) : list event :=
  [EvFindAll CLASS_NAME (lit "review"); EvScript scroll_script; EvSleep 1;
   EvFindOne ID (lit "page-load-more"); EvScript click_script;
   EvWait count_before; EvSleep 1].

Definition is_find_all (ev : event) : bool :=
  match ev with
  | EvFindAll _ _ => true
  | _ => false
  end.

End Spec.

(** * Facts *)

(** ** Strings and patterns *)

Section StringFacts.
Import Py Re Spec.
Context {U : Unicode}.

Lemma str_eqb_eq (a b : str) : str_eqb a b = true <-> a = b.
Proof.
  unfold str_eqb. destruct (list_eq_dec N.eq_dec a b); split; congruence.
Qed.

Lemma str_eqb_refl (a : str) : str_eqb a a = true.
Proof. now apply str_eqb_eq. Qed.

Lemma str_eqb_neq (a b : str) : str_eqb a b = false <-> a <> b.
Proof.
  unfold str_eqb. destruct (list_eq_dec N.eq_dec a b); split; congruence.
Qed.

Lemma decimal_lt c d : decimal c = Some d -> (d < 10)%N.
Proof.
  unfold decimal, ascii_decimal. destruct (is_ascii c).
  - destruct ((48 <=? c) && (c <=? 57))%N eqn:E; [|discriminate].
    intros [= <-]. apply andb_true_iff in E. destruct E as [E1 E2].
    apply N.leb_le in E1, E2. lia.
  - apply uni_decimal_lt.
Qed.

Lemma lstrip_suffix (s : str) : exists pre, s = pre ++ lstrip s.
Proof.
  induction s as [|c s IH]; simpl.
  - now exists [].
  - destruct (isspace c).
    + destruct IH as [pre IH]. exists (c :: pre). simpl. now f_equal.
    + now exists [].
Qed.

Lemma rstrip_prefix (s : str) : exists post, s = rstrip s ++ post.
Proof.
  unfold rstrip. destruct (lstrip_suffix (rev s)) as [pre H].
  exists (rev pre). rewrite <- rev_app_distr, <- H. now rewrite rev_involutive.
Qed.

Lemma strip_infix (s : str) : exists pre post, s = pre ++ strip s ++ post.
Proof.
  unfold strip. destruct (lstrip_suffix s) as [pre H].
  destruct (rstrip_prefix (lstrip s)) as [post H'].
  exists pre, post. now rewrite <- H', <- H.
Qed.

Lemma has_substring_strip (P : str -> Prop) (s : str) :
  has_substring P (strip s) -> has_substring P s.
Proof.
  intros (pre & m & post & E & HP).
  destruct (strip_infix s) as (a & b & Es).
  exists (a ++ pre), m, (post ++ b). split; [|assumption].
  rewrite Es at 1. rewrite E. now rewrite <- !app_assoc.
Qed.

Lemma split_lines_nonempty (s : str) : split_lines s <> [].
Proof.
  induction s as [|c s IH]; simpl; [discriminate|].
  destruct (c =? newline)%N; [discriminate|].
  destruct (split_lines s); discriminate.
Qed.

(** *** The matcher against the language of a pattern *)

Lemma star_k_sound p k s n :
  star_k p k s = Some n ->
  exists a b j, s = a ++ b /\ forallb p a = true /\ k b = Some j /\
                n = (length a + j)%nat.
Proof.
  revert n. induction s as [|c s IH]; simpl; intros n H.
  - exists [], [], n. auto.
  - destruct (p c) eqn:Hp.
    + destruct (star_k p k s) as [n'|] eqn:Hs.
      * injection H as <-. destruct (IH n' eq_refl) as (a & b & j & -> & Ha & Hk & ->).
        exists (c :: a), b, j. simpl. rewrite Hp, Ha. auto.
      * exists [], (c :: s), n. auto.
    + exists [], (c :: s), n. auto.
Qed.

Lemma match_here_sound r : forall s n,
  match_here r s = Some n ->
  exists m rest, s = m ++ rest /\ length m = n /\ lang r m.
Proof.
  induction r as [|i r IH]; intros s n H.
  - injection H as <-. exists [], s. repeat split. constructor.
  - destruct i as [p|p|p|p]; simpl in H.
    + destruct s as [|c s]; [discriminate|].
      destruct (p c) eqn:Hp; [|discriminate].
      destruct (match_here r s) as [n'|] eqn:Hm; [|discriminate].
      injection H as <-. destruct (IH _ _ Hm) as (m & rest & -> & <- & L).
      exists (c :: m), rest. repeat split.
      change (c :: m) with ([c] ++ m). constructor; [now constructor|assumption].
    + assert (Hskip : forall n, match_here r s = Some n ->
                exists m rest, s = m ++ rest /\ length m = n /\ lang (Opt p :: r) m).
      { intros n0 Hm. destruct (IH _ _ Hm) as (m & rest & -> & <- & L).
        exists m, rest. repeat split.
        change m with ([] ++ m). constructor; [constructor|assumption]. }
      destruct s as [|c s]; [now apply Hskip|].
      destruct (p c) eqn:Hp; [|now apply Hskip].
      destruct (match_here r s) as [n'|] eqn:Hm; [|now apply Hskip].
      injection H as <-. destruct (IH _ _ Hm) as (m & rest & -> & <- & L).
      exists (c :: m), rest. repeat split.
      change (c :: m) with ([c] ++ m). constructor; [now constructor|assumption].
    + destruct (star_k_sound _ _ _ H) as (a & b & j & -> & Ha & Hk & ->).
      destruct (IH _ _ Hk) as (m & rest & -> & <- & L).
      exists (a ++ m), rest. rewrite app_assoc, length_app. repeat split.
      constructor; [now constructor|assumption].
    + destruct s as [|c s]; [discriminate|].
      destruct (p c) eqn:Hp; [|discriminate].
      destruct (star_k p (match_here r) s) as [n'|] eqn:Hs; [|discriminate].
      injection H as <-.
      destruct (star_k_sound _ _ _ Hs) as (a & b & j & -> & Ha & Hk & ->).
      destruct (IH _ _ Hk) as (m & rest & -> & <- & L).
      exists (c :: a ++ m), rest. simpl. rewrite app_assoc, length_app. repeat split.
      change (c :: a ++ m) with ((c :: a) ++ m).
      constructor; [now constructor|assumption].
Qed.

Lemma star_k_continue p k s : k s <> None -> star_k p k s <> None.
Proof.
  intros H. destruct s as [|c s]; simpl; [assumption|].
  destruct (p c); [|assumption].
  destruct (star_k p k s); [discriminate|assumption].
Qed.

Lemma star_k_complete p k a b :
  forallb p a = true -> k b <> None -> star_k p k (a ++ b) <> None.
Proof.
  intros Ha Hk. induction a as [|c a IH]; simpl.
  - now apply star_k_continue.
  - simpl in Ha. apply andb_true_iff in Ha. destruct Ha as [Hc Ha].
    rewrite Hc. specialize (IH Ha).
    destruct (star_k p k (a ++ b)); [discriminate|contradiction].
Qed.

Lemma match_here_complete r m :
  lang r m -> forall rest, match_here r (m ++ rest) <> None.
Proof.
  induction 1 as [|i r m1 m2 Hi Hl IH]; intros rest; [discriminate|].
  specialize (IH rest). rewrite <- app_assoc.
  destruct Hi as [p c Hp|p|p c Hp|p m Hm|p c m Hp Hm]; simpl.
  - rewrite Hp. destruct (match_here r (m2 ++ rest)); [discriminate|contradiction].
  - destruct (m2 ++ rest) as [|c s] eqn:E; [assumption|].
    destruct (p c); [|assumption].
    destruct (match_here r s); [discriminate|assumption].
  - rewrite Hp. destruct (match_here r (m2 ++ rest)); [discriminate|contradiction].
  - now apply star_k_complete.
  - rewrite Hp.
    pose proof (star_k_complete p (match_here r) m (m2 ++ rest) Hm IH) as Hs.
    destruct (star_k p (match_here r) (m ++ m2 ++ rest)); [discriminate|contradiction].
Qed.

Lemma search_from_sound r : forall s before b m,
  search_from r before s = Some (b, m) ->
  exists post, rev before ++ s = b ++ m ++ post /\ lang r m.
Proof.
  induction s as [|c s IH]; intros before b m H; simpl in H.
  - destruct (match_here r []) as [n|] eqn:Hm; [|discriminate].
    injection H as <- <-.
    destruct (match_here_sound _ _ Hm) as (m & rest & E & <- & L).
    symmetry in E. apply app_eq_nil in E. destruct E as [-> ->].
    exists []. simpl. split; [reflexivity|assumption].
  - destruct (match_here r (c :: s)) as [n|] eqn:Hm.
    + injection H as <- <-.
      destruct (match_here_sound _ _ Hm) as (m & rest & E & <- & L).
      exists rest. rewrite E, firstn_app, Nat.sub_diag, firstn_all. simpl.
      rewrite app_nil_r. split; [reflexivity|assumption].
    + destruct (IH _ _ _ H) as (post & E & L). exists post.
      simpl in E. rewrite <- app_assoc in E. simpl in E. auto.
Qed.

Lemma search_sound r s b m :
  search r s = Some (b, m) -> exists post, s = b ++ m ++ post /\ lang r m.
Proof. intros H. exact (search_from_sound _ _ _ H). Qed.

Lemma search_from_complete r pre m post before :
  lang r m -> search_from r before (pre ++ m ++ post) <> None.
Proof.
  intros L. revert before. induction pre as [|c pre IH]; intros before; simpl.
  - pose proof (match_here_complete L post) as Hm.
    destruct (m ++ post) as [|c s] eqn:E; simpl;
      destruct (match_here r _); try discriminate; contradiction.
  - destruct (match_here r (c :: pre ++ m ++ post)); [discriminate|apply IH].
Qed.

(** [re.search] finds a match exactly when some substring is in the
    language of the pattern. *)
Lemma search_none_iff r s :
  search r s = None <-> ~ has_substring (lang r) s.
Proof.
  split.
  - intros H (pre & m & post & -> & L).
    now apply (search_from_complete pre post [] L).
  - intros H. destruct (search r s) as [[b m]|] eqn:E; [|reflexivity].
    exfalso. apply H. destruct (search_sound _ _ E) as (post & -> & L).
    now exists b, m, post.
Qed.

End StringFacts.

(** ** The bodies of the three [for] loops *)

Section BlockFacts.
Import Py Re Scraper Spec.
Context {U : Unicode}.

Lemma is_char_true c x : is_char c x = true -> x = c.
Proof. unfold is_char. apply N.eqb_eq. Qed.

Lemma lang_year_re m : lang year_re m <-> year_token m.
Proof.
  unfold year_re, year_token. split.
  - intros H.
    repeat match goal with
           | H : lang (_ :: _) _ |- _ => inversion H; subst; clear H
           | H : lang [] _ |- _ => inversion H; subst; clear H
           | H : item_lang (One _) _ |- _ => inversion H; subst; clear H
           | H : is_char _ _ = true |- _ => apply is_char_true in H; subst
           end.
    simpl. eauto.
  - intros (a & b & -> & Ha & Hb).
    change [50; 48; a; b]%N with ([50%N] ++ [48%N] ++ [a] ++ [b] ++ []).
    repeat (constructor; try assumption).
Qed.

Lemma search_year_none_iff line :
  search year_re line = None <-> ~ has_substring year_token line.
Proof.
  rewrite search_none_iff. split; intros H (pre & m & post & E & L); apply H;
    exists pre, m, post; (split; [exact E|]); now apply lang_year_re.
Qed.

Lemma isdigit_decimal c : isdigit c = true -> exists d, decimal c = Some d.
Proof. unfold isdigit. destruct (decimal c); [eauto|discriminate]. Qed.

Lemma int_year_token m :
  year_token m -> exists y, int m = Some y /\ (2000 <= y <= 2099)%Z.
Proof.
  intros (a & b & -> & Ha & Hb).
  destruct (isdigit_decimal _ Ha) as [da Da].
  destruct (isdigit_decimal _ Hb) as [db Db].
  pose proof (decimal_lt _ Da). pose proof (decimal_lt _ Db).
  exists (2000 + 10 * Z.of_N da + Z.of_N db)%Z. split; [|lia].
  unfold int. cbn [int_digits].
  change (decimal 50%N) with (Some 2%N). change (decimal 48%N) with (Some 0%N).
  cbn iota. rewrite Da, Db. f_equal. lia.
Qed.

Lemma search_year_some line b m :
  search year_re line = Some (b, m) ->
  m <> [] /\ line <> [] /\ exists y, int m = Some y /\ (2000 <= y <= 2099)%Z.
Proof.
  intros H. destruct (search_sound _ _ H) as (post & -> & L).
  apply lang_year_re in L. pose proof (int_year_token L) as Hy.
  destruct L as (x & y & -> & _). repeat split; try assumption.
  - discriminate.
  - destruct b; discriminate.
Qed.

(** [find_date] never raises: it stops at the first line showing a year. *)
Lemma find_date_cases lines :
  (find_date lines = Ok (None, None) /\
   forall l, In l lines -> search year_re l = None) \/
  (exists pre line post y,
     lines = pre ++ line :: post /\
     (forall l, In l pre -> search year_re l = None) /\
     find_date lines = Ok (Some y, Some line) /\
     line_year line = Some y /\ line <> [] /\ (2000 <= y <= 2099)%Z).
Proof.
  induction lines as [|line rest IH]; simpl.
  - left. split; [reflexivity|]. intros l [].
  - destruct (search year_re line) as [[b m]|] eqn:E.
    + right. destruct (search_year_some _ E) as (_ & Hne & y & Hy & Hr).
      exists [], line, rest, y. unfold line_year. rewrite E. simpl.
      rewrite Hy. simpl. repeat split; try assumption; try lia.
    + destruct IH as [[IH1 IH2]|(pre & l0 & post & y & -> & Hpre & Hf & Hl & Hne & Hr)].
      * left. split; [assumption|]. intros l [<-|Hin]; auto.
      * right. exists (line :: pre), l0, post, y. repeat split; try assumption; try lia.
        intros l [<-|Hin]; auto.
Qed.

Lemma extract_star_rating_rating_of c s :
  extract_star_rating c = Ok s -> int_or s 5 = rating_of (star_paths c).
Proof.
  unfold extract_star_rating, rating_of. destruct (star_paths c) as [n|e|]; simpl.
  - intros [= <-]. destruct n as [|n]; [reflexivity|].
    unfold int_or. destruct (Z.eqb_spec (Z.min (Z.of_nat (S n)) 5) 0); [lia|reflexivity].
  - destruct (is_Exception e); [|discriminate]. now intros [= <-].
  - discriminate.
Qed.

Lemma rating_of_bounds o : (1 <= rating_of o <= 5)%Z.
Proof.
  unfold rating_of. destruct o as [[|n]|e|]; lia.
Qed.

Lemma otry_cases {A} (m h : outcome A) :
  (exists a, m = Ok a /\ otry m h = Ok a) \/
  (exists e, m = Raise e /\ is_Exception e = true /\ otry m h = h) \/
  (escapes m /\ otry m h = m).
Proof.
  destruct m as [a|e|]; simpl.
  - left. eauto.
  - destruct (is_Exception e) eqn:E; [right; left; eauto|right; right; auto].
  - right; right; auto.
Qed.

Lemma review_block_step block acc :
  review_step block acc (review_block block acc).
Proof.
  unfold review_block, block_year.
  match goal with |- context [otry ?m ?h] =>
    destruct (otry_cases m h) as [(a & Hm & ->)|[(e & _ & _ & ->)|(He & ->)]]
  end; [|constructor|now constructor].
  destruct (text block) as [t|e|] eqn:Ht; simpl in Hm; try discriminate.
  destruct (find_date_cases (split_lines (strip t)))
    as [[Hf _]|(pre & line & post & y & El & Hpre & Hf & Hy & Hne & Hr)];
    rewrite Hf in Hm; simpl in Hm.
  - injection Hm as <-. constructor.
  - destruct line as [|c line]; [congruence|]. simpl in Hm.
    destruct (Z.ltb_spec y 2023).
    + injection Hm as <-. apply rs_cutoff with y; [|assumption].
      unfold block_year. now rewrite Ht, Hf.
    + destruct (max_by_len (split_lines (strip t))) as [rt|] eqn:Hmx; simpl in Hm; [|discriminate].
      destruct (extract_star_rating block) as [s| |] eqn:Hs; simpl in Hm; try discriminate.
      destruct (text_taken acc rt) eqn:Htk; simpl in Hm; injection Hm as <-.
      * constructor.
      * apply rs_accept with y t; simpl; try assumption; try reflexivity.
        -- unfold block_year. now rewrite Ht, Hf.
        -- now apply extract_star_rating_rating_of.

Qed.

Lemma review_block_cutoff block acc y :
  block_year block = Some y -> (y < 2023)%Z ->
  review_block block acc = Ok (Break acc).
Proof.
  unfold block_year, review_block. intros Hy Hlt.
  destruct (text block) as [t| |]; try discriminate. simpl.
  destruct (find_date_cases (split_lines (strip t)))
    as [[Hf _]|(pre & line & post & y' & El & Hpre & Hf & _ & Hne & Hr)];
    rewrite Hf in *; [discriminate|].
  injection Hy as ->. simpl. destruct line; [congruence|]. simpl.
  destruct (Z.ltb_spec y 2023); [reflexivity|lia].
Qed.

Lemma review_block_undated block acc t :
  text block = Ok t ->
  (forall l, In l (split_lines (strip t)) -> ~ has_substring year_token l) ->
  review_block block acc = Ok (Next acc).
Proof.
  intros Ht Hno. unfold review_block. rewrite Ht. simpl.
  destruct (find_date_cases (split_lines (strip t)))
    as [[Hf _]|(pre & line & post & y & El & Hpre & Hf & Hy & Hne & Hr)].
  - now rewrite Hf.
  - exfalso. assert (Hin : In line (split_lines (strip t))) by (rewrite El; apply in_elt).
    apply Hno in Hin. apply search_year_none_iff in Hin.
    unfold line_year in Hy. rewrite Hin in Hy. discriminate.
Qed.

End BlockFacts.

Section CardFacts.
Import Py Re Scraper Spec.
Context {U : Unicode}.

Lemma escapes_not_ok {A} (o : outcome A) a : escapes o -> o <> Ok a.
Proof. intros H ->. exact H. Qed.

Lemma product_card_escapes card st :
  escapes (text card) -> escapes (product_card card st).
Proof.
  destruct st as [ps n]. unfold product_card.
  destruct (text card) as [t|e|]; simpl; try contradiction.
  - intros H. now rewrite H.
  - trivial.
Qed.

Lemma product_card_step card st :
  ~ escapes (text card) -> product_card card st = Ok (product_step card st).
Proof.
  destruct st as [ps n]. unfold product_card, product_step, candidate, card_title.
  destruct (text card) as [t|e|]; simpl.
  - intros _. destruct (split_lines (strip t)) as [|title rest] eqn:E.
    + now apply split_lines_nonempty in E.
    + simpl.
      destruct (truthy title && negb (str_eqb (lower title) (lit "log in"))); simpl;
        [|reflexivity].
      destruct (title_taken ps title); reflexivity.
  - intros H. destruct (is_Exception e); [reflexivity|]. now contradiction H.
  - intros H. now contradiction H.
Qed.

Lemma product_card_ok card st st' :
  product_card card st = Ok st' -> st' = product_step card st.
Proof.
  intros H. assert (Hne : ~ escapes (text card)).
  { intros He. apply (product_card_escapes card st) in He. now rewrite H in He. }
  rewrite (product_card_step _ _ Hne) in H. congruence.
Qed.

Lemma product_cards_loop_readable page : forall st,
  readable page ->
  product_cards_loop page st = Ok (fold_left (fun s c => product_step c s) page st).
Proof.
  induction page as [|card page IH]; intros st Hr; simpl; [reflexivity|].
  inversion Hr as [|? ? Hc Hp]; subst.
  rewrite (product_card_step _ _ Hc). simpl. now apply IH.
Qed.

Lemma title_taken_iff ps t : title_taken ps t = true <-> In t (map p_title ps).
Proof.
  unfold title_taken. rewrite existsb_exists, in_map_iff. split.
  - intros (p & Hin & E). apply str_eqb_eq in E. eauto.
  - intros (p & E & Hin). exists p. split; [assumption|]. now apply str_eqb_eq.
Qed.

Lemma title_taken_false ps t : title_taken ps t = false <-> ~ In t (map p_title ps).
Proof.
  rewrite <- title_taken_iff. destruct (title_taken ps t); split; congruence.
Qed.

Lemma product_step_nodup card st :
  NoDup (map p_title (fst st)) -> NoDup (map p_title (fst (product_step card st))).
Proof.
  intros H. unfold product_step. destruct (candidate card) as [p|]; [|assumption].
  destruct (title_taken (fst st) (p_title p)) eqn:E; [assumption|]. simpl.
  rewrite map_app. simpl. apply title_taken_false in E.
  apply NoDup_app; [assumption|repeat constructor; intros []|].
  intros a Ha [<-|[]]. contradiction.
Qed.

(** Titles after a card: the old ones and the card's. *)
Lemma product_step_titles card st t :
  In t (map p_title (fst (product_step card st))) <->
  In t (map p_title (fst st)) \/ In t (titles [card]).
Proof.
  unfold product_step, titles. simpl. destruct (candidate card) as [p|]; simpl.
  - destruct (title_taken (fst st) (p_title p)) eqn:E; simpl.
    + apply title_taken_iff in E. split; [auto|]. intros [H|[<-|[]]]; assumption.
    + rewrite map_app, in_app_iff. simpl. tauto.
  - tauto.
Qed.

(** The counter moves exactly when the card brings a title not yet held. *)
Lemma product_step_count card st :
  (snd (product_step card st) = snd st /\ fst (product_step card st) = fst st /\
   incl (titles [card]) (map p_title (fst st))) \/
  (snd (product_step card st) = S (snd st) /\
   ~ incl (titles [card]) (map p_title (fst st))).
Proof.
  unfold product_step, titles. simpl. destruct (candidate card) as [p|]; simpl.
  - destruct (title_taken (fst st) (p_title p)) eqn:E.
    + left. apply title_taken_iff in E. repeat split. intros a [<-|[]]. assumption.
    + right. apply title_taken_false in E. split; [reflexivity|].
      intros H. apply E, H. now left.
  - left. repeat split. intros a [].
Qed.

Lemma titles_cons card page : titles (card :: page) = titles [card] ++ titles page.
Proof. unfold titles. simpl. now rewrite app_nil_r. Qed.

Lemma fold_product_step_nodup page : forall st,
  NoDup (map p_title (fst st)) ->
  NoDup (map p_title (fst (fold_left (fun s c => product_step c s) page st))).
Proof.
  induction page as [|card page IH]; intros st H; simpl; [assumption|].
  apply IH. now apply product_step_nodup.
Qed.

Lemma fold_product_step_titles page : forall st t,
  In t (map p_title (fst (fold_left (fun s c => product_step c s) page st))) <->
  In t (map p_title (fst st)) \/ In t (titles page).
Proof.
  induction page as [|card page IH]; intros st t.
  - unfold titles. simpl. tauto.
  - cbn [fold_left]. rewrite IH, product_step_titles, (titles_cons card page), in_app_iff.
    tauto.
Qed.

Lemma fold_product_step_count page : forall st,
  let st' := fold_left (fun s c => product_step c s) page st in
  (snd st <= snd st')%nat /\
  (snd st' = snd st <-> incl (titles page) (map p_title (fst st))) /\
  (snd st' = snd st -> fst st' = fst st).
Proof.
  induction page as [|card page IH]; intros st; cbn [fold_left].
  - simpl. split; [lia|]. split; [|reflexivity].
    split; [intros _ x []|reflexivity].
  - specialize (IH (product_step card st)). cbv zeta in IH. cbv zeta.
    destruct IH as (Hle & Hiff & Hsame).
    set (st1 := product_step card st) in *.
    set (st' := fold_left _ page st1) in *.
    rewrite titles_cons.
    destruct (product_step_count card st) as [(Hs & Hf & Hi)|(Hs & Hi)]; fold st1 in Hs.
    + fold st1 in Hf. rewrite Hs, Hf in *. split; [assumption|]. split.
      * rewrite Hiff. split.
        -- intros H. now apply incl_app.
        -- intros H a Ha. apply H, in_app_iff. now right.
      * assumption.
    + split; [lia|]. split; [|lia]. split; [lia|].
      intros H. contradiction Hi. intros a Ha. apply H, in_app_iff. now left.
Qed.

(** *** Testimonials *)

Lemma testimonial_taken_iff ts t :
  testimonial_taken ts t = true <-> In t (map t_text ts).
Proof.
  unfold testimonial_taken. rewrite existsb_exists, in_map_iff. split.
  - intros (p & Hin & E). apply str_eqb_eq in E. eauto.
  - intros (p & E & Hin). exists p. split; [assumption|]. now apply str_eqb_eq.
Qed.

Lemma text_taken_iff rs t : text_taken rs t = true <-> In t (map r_text rs).
Proof.
  unfold text_taken. rewrite existsb_exists, in_map_iff. split.
  - intros (p & Hin & E). apply str_eqb_eq in E. eauto.
  - intros (p & E & Hin). exists p. split; [assumption|]. now apply str_eqb_eq.
Qed.

Lemma testimonial_card_step card acc :
  testimonial_step card acc (testimonial_card card acc).
Proof.
  unfold testimonial_card.
  match goal with |- context [otry ?m ?h] =>
    destruct (otry_cases m h) as [(a & Hm & ->)|[(e & _ & _ & ->)|(He & ->)]]
  end; [|constructor|now constructor].
  destruct (text card) as [raw|e|] eqn:Ht; simpl in Hm; try discriminate.
  set (t := strip (replace_newlines raw)) in *.
  destruct (is_boilerplate t) eqn:Hb; simpl in Hm; [injection Hm as <-; constructor|].
  destruct (Nat.ltb_spec (length t) 10); simpl in Hm; [injection Hm as <-; constructor|].
  destruct (Nat.ltb_spec 400 (length t)); simpl in Hm; [injection Hm as <-; constructor|].
  destruct (testimonial_taken acc t) eqn:Htk; simpl in Hm; [injection Hm as <-; constructor|].
  destruct (extract_star_rating card) as [s| |] eqn:Hs; simpl in Hm; try discriminate.
  injection Hm as <-. apply ts_accept with raw; simpl; try assumption; try reflexivity.
  - fold t. lia.
  - now apply extract_star_rating_rating_of.
Qed.

End CardFacts.

(** ** Computations on the world *)

Section MonadFacts.
Import Spec.
Context {W : Type}.

Lemma returns_ret {A} (a : A) (P : A -> Prop) : P a -> returns (@ret W A a) P.
Proof. intros H w a' w' evs [= <- _ _]. exact H. Qed.

Lemma returns_lift {A} (o : outcome A) (P : A -> Prop) :
  (forall a, o = Ok a -> P a) -> returns (@lift W A o) P.
Proof. intros H w a w' evs [= -> _ _]. now apply H. Qed.

Lemma returns_diverge {A} (P : A -> Prop) : returns (@diverge W A) P.
Proof. intros w a w' evs [=]. Qed.

Lemma returns_any {A} (m : M W A) : returns m (fun _ => True).
Proof. intros w a w' evs _. exact I. Qed.

Lemma returns_bind {A B} (m : M W A) (k : A -> M W B) (P : A -> Prop) (Q : B -> Prop) :
  returns m P -> (forall a, P a -> returns (k a) Q) -> returns (bind m k) Q.
Proof.
  intros Hm Hk w b w' evs. unfold bind.
  destruct (m w) as [[[a|e|] w1] ev1] eqn:E; try discriminate.
  destruct (k a w1) as [[r w2] ev2] eqn:E2. intros [= -> <- <-].
  exact (Hk a (Hm _ _ _ _ E) _ _ _ _ E2).
Qed.

Lemma returns_try_except {A} (m h : M W A) (P : A -> Prop) :
  returns m P -> returns h P -> returns (try_except m h) P.
Proof.
  intros Hm Hh w a w' evs. unfold try_except.
  destruct (m w) as [[[a0|e|] w1] ev1] eqn:E.
  - intros [= <- <- <-]. exact (Hm _ _ _ _ E).
  - destruct (is_Exception e); [|discriminate].
    destruct (h w1) as [[r w2] ev2] eqn:E2. intros [= -> <- <-].
    exact (Hh _ _ _ _ E2).
  - discriminate.
Qed.

Lemma emits_ret {A} (a : A) P : emits (@ret W A a) P.
Proof. intros w r w' evs [= _ _ <-]. constructor. Qed.

Lemma emits_lift {A} (o : outcome A) P : emits (@lift W A o) P.
Proof. intros w r w' evs [= _ _ <-]. constructor. Qed.

Lemma emits_diverge {A} P : emits (@diverge W A) P.
Proof. intros w r w' evs [= _ _ <-]. constructor. Qed.

Lemma emits_call {A} ev (f : W -> outcome A * W) (P : event -> Prop) :
  P ev -> emits (call ev f) P.
Proof.
  intros H w r w' evs. unfold call. destruct (f w). intros [= _ _ <-].
  now repeat constructor.
Qed.

Lemma emits_bind {A B} (m : M W A) (k : A -> M W B) P :
  emits m P -> (forall a, emits (k a) P) -> emits (bind m k) P.
Proof.
  intros Hm Hk w r w' evs. unfold bind.
  destruct (m w) as [[[a|e|] w1] ev1] eqn:E.
  - destruct (k a w1) as [[r2 w2] ev2] eqn:E2. intros [= _ _ <-].
    apply Forall_app. split; [exact (Hm _ _ _ _ E)|exact (Hk _ _ _ _ _ E2)].
  - intros [= _ _ <-]. exact (Hm _ _ _ _ E).
  - intros [= _ _ <-]. exact (Hm _ _ _ _ E).
Qed.

Lemma emits_try_except {A} (m h : M W A) P :
  emits m P -> emits h P -> emits (try_except m h) P.
Proof.
  intros Hm Hh w r w' evs. unfold try_except.
  destruct (m w) as [[[a0|e|] w1] ev1] eqn:E.
  - intros [= _ _ <-]. exact (Hm _ _ _ _ E).
  - destruct (is_Exception e).
    + destruct (h w1) as [[r2 w2] ev2] eqn:E2. intros [= _ _ <-].
      apply Forall_app. split; [exact (Hm _ _ _ _ E)|exact (Hh _ _ _ _ E2)].
    + intros [= _ _ <-]. exact (Hm _ _ _ _ E).
  - intros [= _ _ <-]. exact (Hm _ _ _ _ E).
Qed.

(** Running a bind whose first part is known. *)
Lemma bind_ok {A B} (m : M W A) (k : A -> M W B) w a w1 ev1 :
  m w = (Ok a, w1, ev1) ->
  bind m k w = (let '(r, w2, ev2) := k a w1 in (r, w2, ev1 ++ ev2)).
Proof. intros H. unfold bind. now rewrite H. Qed.

Lemma bind_raise {A B} (m : M W A) (k : A -> M W B) w e w1 ev1 :
  m w = (Raise e, w1, ev1) -> bind m k w = (Raise e, w1, ev1).
Proof. intros H. unfold bind. now rewrite H. Qed.

Lemma call_eq {A} ev (f : W -> outcome A * W) w r w1 :
  f w = (r, w1) -> call ev f w = (r, w1, [ev]).
Proof. intros H. unfold call. now rewrite H. Qed.

End MonadFacts.

(** ** The loops *)

Section LoopFacts.
Import Py Re Scraper Spec.
Context {U : Unicode}.

Lemma review_ok_nil : review_ok [].
Proof. repeat split; constructor. Qed.

Lemma testimonial_ok_nil : testimonial_ok [].
Proof. repeat split; constructor. Qed.

Lemma nodup_snoc {A B} (f : A -> B) (l : list A) (x : A) :
  NoDup (map f l) -> ~ In (f x) (map f l) -> NoDup (map f (l ++ [x])).
Proof.
  intros H Hn. rewrite map_app. simpl.
  apply NoDup_app; [assumption|repeat constructor; intros []|].
  intros a Ha [<-|[]]. contradiction.
Qed.

Lemma review_block_ok block acc f :
  review_ok acc -> review_block block acc = Ok f ->
  review_ok (match f with Next a => a | Break a => a end).
Proof.
  intros Hok E. pose proof (review_block_step block acc) as Hs. rewrite E in Hs.
  inversion Hs as [|r y t Ht Hfd Hmx Htk Hby Hly Hy Hr|y Hby Hy|o Ho]; subst; try assumption.
  - destruct Hok as (Hn & Hy' & Hr'). repeat split.
    + apply nodup_snoc; [assumption|]. rewrite <- text_taken_iff. congruence.
    + apply Forall_app. split; [assumption|]. constructor; [|constructor]. eauto.
    + apply Forall_app. split; [assumption|]. constructor; [|constructor].
      rewrite Hr. apply rating_of_bounds.
  - contradiction.
Qed.

Lemma review_blocks_loop_ok blocks : forall acc acc' b,
  review_ok acc -> review_blocks_loop blocks acc = Ok (acc', b) -> review_ok acc'.
Proof.
  induction blocks as [|block rest IH]; intros acc acc' b Hok; simpl.
  - now intros [= <- _].
  - destruct (review_block block acc) as [f|e|] eqn:E; simpl; try discriminate.
    pose proof (review_block_ok _ Hok E) as Hok'. destruct f as [a|a].
    + now apply IH.
    + now intros [= <- _].
Qed.

Lemma testimonial_card_ok card acc acc' :
  testimonial_ok acc -> testimonial_card card acc = Ok acc' -> testimonial_ok acc'.
Proof.
  intros Hok E. pose proof (testimonial_card_step card acc) as Hs. rewrite E in Hs.
  inversion Hs as [|x raw Ht Hx Htk Hb Hl Hr|o Ho]; subst; try assumption.
  - destruct Hok as (Hn & Hf & Hr'). repeat split.
    + apply nodup_snoc; [assumption|]. rewrite <- testimonial_taken_iff. congruence.
    + apply Forall_app. split; [assumption|]. constructor; [|constructor]. now split.
    + apply Forall_app. split; [assumption|]. constructor; [|constructor].
      rewrite Hr. apply rating_of_bounds.
  - contradiction.
Qed.

Lemma testimonial_cards_loop_ok cards : forall acc acc',
  testimonial_ok acc -> testimonial_cards_loop cards acc = Ok acc' ->
  testimonial_ok acc'.
Proof.
  induction cards as [|card rest IH]; intros acc acc' Hok; simpl.
  - now intros [= <-].
  - destruct (testimonial_card card acc) as [a|e|] eqn:E; simpl; try discriminate.
    apply IH. exact (testimonial_card_ok _ Hok E).
Qed.

Lemma product_cards_loop_nodup cards : forall st st',
  NoDup (map p_title (fst st)) -> product_cards_loop cards st = Ok st' ->
  NoDup (map p_title (fst st')).
Proof.
  induction cards as [|card rest IH]; intros st st' Hn; simpl.
  - now intros [= <-].
  - destruct (product_card card st) as [a|e|] eqn:E; simpl; try discriminate.
    apply IH. apply product_card_ok in E. subst a. now apply product_step_nodup.
Qed.

Section WithDriver.
Context {W : Type} {D : Driver W}.

Lemma reviews_loop_ok fuel : forall acc,
  review_ok acc -> returns (reviews_loop (W:=W) fuel acc) review_ok.
Proof.
  induction fuel as [|fuel IH]; intros acc Hok; simpl.
  - apply returns_diverge.
  - eapply returns_bind; [apply returns_any|]. intros blocks _.
    eapply returns_bind.
    { apply returns_lift with (P := fun st => review_ok (fst st)).
      intros [acc' b] E. exact (review_blocks_loop_ok _ Hok E). }
    intros [acc' b] Hok'. simpl in *. destruct b; [now apply returns_ret|].
    eapply returns_bind; [apply returns_any|]. intros _ _.
    eapply returns_bind; [apply returns_any|]. intros _ _.
    eapply returns_bind; [apply returns_any|]. intros again _.
    destruct again; [now apply IH|now apply returns_ret].
Qed.

Lemma collect_reviews_ok fuel : returns (collect_reviews (W:=W) fuel) review_ok.
Proof.
  unfold collect_reviews.
  eapply returns_bind; [apply returns_any|]. intros _ _.
  eapply returns_bind; [apply returns_any|]. intros _ _.
  apply reviews_loop_ok, review_ok_nil.
Qed.

Lemma collect_testimonials_ok fuel :
  returns (collect_testimonials (W:=W) fuel) testimonial_ok.
Proof.
  unfold collect_testimonials.
  eapply returns_bind; [apply returns_any|]. intros _ _.
  eapply returns_bind; [apply returns_any|]. intros _ _.
  eapply returns_bind; [apply returns_any|]. intros h _.
  eapply returns_bind; [apply returns_any|]. intros _ _.
  eapply returns_bind; [apply returns_any|]. intros cards _.
  apply returns_lift. intros acc E.
  exact (testimonial_cards_loop_ok _ testimonial_ok_nil E).
Qed.

Lemma products_loop_nodup fuel : forall n acc,
  NoDup (map p_title acc) ->
  returns (products_loop (W:=W) fuel n acc) (fun ps => NoDup (map p_title ps)).
Proof.
  induction fuel as [|fuel IH]; intros n acc Hn; simpl.
  - apply returns_diverge.
  - eapply returns_bind; [apply returns_any|]. intros _ _.
    eapply returns_bind; [apply returns_any|]. intros _ _.
    eapply returns_bind; [apply returns_any|]. intros cards _.
    destruct cards as [|c cards]; [now apply returns_ret|].
    eapply returns_bind.
    { apply returns_lift with (P := fun st => NoDup (map p_title (fst st))).
      intros st E. exact (product_cards_loop_nodup _ (acc, 0%nat) Hn E). }
    intros st Hst. destruct (snd st =? 0)%nat; [now apply returns_ret|now apply IH].
Qed.

Lemma collect_products_nodup fuel :
  returns (collect_products (W:=W) fuel) (fun ps => NoDup (map p_title ps)).
Proof. apply products_loop_nodup. constructor. Qed.

End WithDriver.
End LoopFacts.

(** ** Substrings *)

Section ContainsFacts.
Import Py.

Lemma starts_with_iff p s : starts_with p s = true <-> exists post, s = p ++ post.
Proof.
  revert s. induction p as [|a p IH]; intros s; simpl.
  - split; [eauto|reflexivity].
  - destruct s as [|b s].
    + split; [discriminate|]. intros [post H]. discriminate.
    + rewrite andb_true_iff, N.eqb_eq, IH. split.
      * intros [-> [post ->]]. now exists post.
      * intros [post [= -> ->]]. eauto.
Qed.

(** [needle in hay] holds exactly when [needle] is a substring of [hay]. *)
Lemma contains_iff needle hay :
  contains needle hay = true <-> exists pre post, hay = pre ++ needle ++ post.
Proof.
  induction hay as [|c hay IH].
  - simpl. rewrite orb_false_r, starts_with_iff. split.
    + intros [post H]. now exists [], post.
    + intros (pre & post & H). destruct pre; [now exists post|discriminate].
  - cbn [contains]. rewrite orb_true_iff, starts_with_iff, IH. split.
    + intros [[post H]|(pre & post & ->)].
      * now exists [], post.
      * now exists (c :: pre), post.
    + intros (pre & post & H). destruct pre as [|x pre].
      * left. now exists post.
      * right. injection H as _ ->. now exists pre, post.
Qed.

End ContainsFacts.

(** * The properties of the specification *)

Section Claims.
Import Py Re Scraper Spec.
Context {U : Unicode}.

(** C5: Rating rule.  [extract_star_rating] gives the number of matched
    star paths clamped to at most 5; the rating written in a review or a
    testimonial is that number, or 5 when it is zero; and every rating the
    review and testimonial passes return lies between 0 and 5. *)
Theorem rating_rule :
  (forall c n, star_paths c = Ok n ->
     extract_star_rating c = Ok (Z.min (Z.of_nat n) 5)) /\
  (forall n, rating_of (Ok n) =
             if (n =? 0)%nat then 5%Z else Z.min (Z.of_nat n) 5) /\
  (forall block acc r,
     review_block block acc = Ok (Next (acc ++ [r])) ->
     r_rating r = rating_of (star_paths block)) /\
  (forall card acc x,
     testimonial_card card acc = Ok (acc ++ [x]) ->
     t_rating x = rating_of (star_paths card)) /\
  (forall W (D : Driver W) fuel w rs w' evs,
     collect_reviews fuel w = (Ok rs, w', evs) ->
     Forall (fun r => (0 <= r_rating r <= 5)%Z) rs) /\
  (forall W (D : Driver W) fuel w ts w' evs,
     collect_testimonials fuel w = (Ok ts, w', evs) ->
     Forall (fun x => (0 <= t_rating x <= 5)%Z) ts).
Proof.
  repeat split.
  - intros c n H. unfold extract_star_rating. now rewrite H.
  - intros [|n]; reflexivity.
  - intros block acc r E. pose proof (review_block_step block acc) as Hs.
    rewrite E in Hs. inversion Hs as [Ha|r0 y t Ht Hfd Hmx Htk Hby Hly Hy Hr Ha| |o Ho Ha].
    + exfalso. apply (f_equal (@length Review)) in Ha.
      rewrite length_app in Ha. simpl in Ha. lia.
    + apply app_inv_head in Ha. injection Ha as ->. exact Hr.
    + contradiction.
  - intros card acc x E. pose proof (testimonial_card_step card acc) as Hs.
    rewrite E in Hs. inversion Hs as [Ha|x0 raw Ht Hx Htk Hb Hl Hr Ha|o Ho Ha].
    + exfalso. apply (f_equal (@length Testimonial)) in Ha.
      rewrite length_app in Ha. simpl in Ha. lia.
    + apply app_inv_head in Ha. injection Ha as ->. exact Hr.
    + contradiction.
  - intros W D fuel w rs w' evs E.
    destruct (collect_reviews_ok fuel _ E) as (_ & _ & H).
    eapply Forall_impl; [|exact H]. simpl. intros; lia.
  - intros W D fuel w ts w' evs E.
    destruct (collect_testimonials_ok fuel _ E) as (_ & _ & H).
    eapply Forall_impl; [|exact H]. simpl. intros; lia.
Qed.

(** C9: No rating below 1.  A star count of 0 - found, or put in place of
    an exception of the lookup - is replaced by 5, so the rating of a record
    is at least 1, in every list the review and testimonial passes return. *)
Theorem rating_at_least_one :
  (forall c e, star_paths c = Raise e -> is_Exception e = true ->
     extract_star_rating c = Ok 0%Z) /\
  int_or 0 5 = 5%Z /\
  (forall c s, extract_star_rating c = Ok s -> (1 <= int_or s 5 <= 5)%Z) /\
  (forall W (D : Driver W) fuel w rs w' evs,
     collect_reviews fuel w = (Ok rs, w', evs) ->
     Forall (fun r => (1 <= r_rating r)%Z) rs) /\
  (forall W (D : Driver W) fuel w ts w' evs,
     collect_testimonials fuel w = (Ok ts, w', evs) ->
     Forall (fun x => (1 <= t_rating x)%Z) ts).
Proof.
  repeat split.
  - intros c e H He. unfold extract_star_rating. rewrite H. simpl. now rewrite He.
  - rewrite (extract_star_rating_rating_of _ H). apply rating_of_bounds.
  - rewrite (extract_star_rating_rating_of _ H). apply rating_of_bounds.
  - intros W D fuel w rs w' evs E.
    destruct (collect_reviews_ok fuel _ E) as (_ & _ & H).
    eapply Forall_impl; [|exact H]. simpl. intros; lia.
  - intros W D fuel w ts w' evs E.
    destruct (collect_testimonials_ok fuel _ E) as (_ & _ & H).
    eapply Forall_impl; [|exact H]. simpl. intros; lia.
Qed.

(** C2: Dedup uniqueness.  In the list each pass returns no two records
    share their key (title of a product, text of a review, text of a
    testimonial), and a candidate whose key is already held leaves the list
    as it was. *)
Theorem dedup_unique :
  (forall W (D : Driver W) fuel w ps w' evs,
     collect_products fuel w = (Ok ps, w', evs) -> NoDup (map p_title ps)) /\
  (forall W (D : Driver W) fuel w rs w' evs,
     collect_reviews fuel w = (Ok rs, w', evs) -> NoDup (map r_text rs)) /\
  (forall W (D : Driver W) fuel w ts w' evs,
     collect_testimonials fuel w = (Ok ts, w', evs) -> NoDup (map t_text ts)) /\
  (forall card ps n t title,
     text card = Ok t -> hd_error (split_lines (strip t)) = Some title ->
     In title (map p_title ps) ->
     product_card card (ps, n) = Ok (ps, n)) /\
  (forall block acc t review_text f,
     text block = Ok t ->
     max_by_len (split_lines (strip t)) = Some review_text ->
     In review_text (map r_text acc) ->
     review_block block acc = Ok f -> f = Next acc \/ f = Break acc) /\
  (forall card acc raw,
     text card = Ok raw ->
     In (strip (replace_newlines raw)) (map t_text acc) ->
     testimonial_card card acc = Ok acc).
Proof.
  repeat split.
  - intros W D fuel w ps w' evs E. exact (collect_products_nodup fuel _ E).
  - intros W D fuel w rs w' evs E. now destruct (collect_reviews_ok fuel _ E).
  - intros W D fuel w ts w' evs E. now destruct (collect_testimonials_ok fuel _ E).
  - intros card ps n t title Ht Hd Hin.
    assert (Hne : ~ escapes (text card)) by (rewrite Ht; tauto).
    rewrite (product_card_step _ (ps, n) Hne). f_equal.
    unfold product_step, candidate. rewrite Ht, Hd.
    destruct (truthy title && _); [|reflexivity]. simpl.
    apply title_taken_iff in Hin. now rewrite Hin.
  - intros block acc t rt f Ht Hmx Hin E.
    pose proof (review_block_step block acc) as Hs. rewrite E in Hs.
    inversion Hs as [|r y t' Ht' Hfd Hmx' Htk Hby Hly Hy Hr|y Hby Hy|o Ho]; subst; auto.
    + exfalso. rewrite Ht in Ht'. injection Ht' as <-.
      rewrite Hmx in Hmx'. injection Hmx' as ->.
      apply text_taken_iff in Hin. congruence.
    + contradiction.
  - intros card acc raw Ht Hin. unfold testimonial_card. rewrite Ht. simpl.
    apply testimonial_taken_iff in Hin. rewrite Hin. simpl.
    destruct (_ || _ || _); reflexivity.
Qed.

(** C4: Testimonial filter, as the code has it.  A testimonial whose text
    (newlines replaced by spaces, then stripped) is shorter than 10 or longer
    than 400 characters, or contains "Take a look" or "collection", is not
    added; every testimonial the pass returns has a text of 10 to 400
    characters, both bounds included, with neither marker in it. *)
Theorem testimonial_filter :
  (forall card acc raw,
     text card = Ok raw ->
     let t := strip (replace_newlines raw) in
     ((length t < 10)%nat \/ (400 < length t)%nat \/
      (exists pre post, t = pre ++ lit "Take a look" ++ post) \/
      (exists pre post, t = pre ++ lit "collection" ++ post)) ->
     testimonial_card card acc = Ok acc) /\
  (forall W (D : Driver W) fuel w ts w' evs,
     collect_testimonials fuel w = (Ok ts, w', evs) ->
     Forall (fun x =>
               (10 <= length (t_text x) <= 400)%nat /\
               (~ exists pre post, t_text x = pre ++ lit "Take a look" ++ post) /\
               (~ exists pre post, t_text x = pre ++ lit "collection" ++ post)) ts).
Proof.
  split.
  - intros card acc raw Ht t H. unfold testimonial_card. rewrite Ht. simpl. fold t.
    assert (E : is_boilerplate t || (length t <? 10)%nat || (400 <? length t)%nat = true).
    { unfold is_boilerplate. rewrite !orb_true_iff, !contains_iff.
      rewrite Nat.ltb_lt, Nat.ltb_lt. tauto. }
    now rewrite E.
  - intros W D fuel w ts w' evs E.
    destruct (collect_testimonials_ok fuel _ E) as (_ & H & _).
    eapply Forall_impl; [|exact H]. intros x [Hl Hb]. split; [assumption|].
    unfold is_boilerplate in Hb. apply orb_false_iff in Hb. destruct Hb as [H1 H2].
    split; intros Hc; apply contains_iff in Hc; congruence.
Qed.

(** Blocks before a cutoff do not change what the rest of the scan does. *)
Lemma review_blocks_loop_app pre : forall acc acc1 rest,
  review_blocks_loop pre acc = Ok (acc1, false) ->
  review_blocks_loop (pre ++ rest) acc = review_blocks_loop rest acc1.
Proof.
  induction pre as [|b pre IH]; intros acc acc1 rest; simpl.
  - now intros [= ->].
  - destruct (review_block b acc) as [[a|a]|e|]; simpl; try discriminate.
    apply IH.
Qed.

Ltac run_call :=
  erewrite bind_ok by (apply call_eq; eassumption); cbv beta iota.

(** C1: Temporal cutoff.  Every review the pass returns has a date whose
    year is 2023 or later; the scan stops at the first block whose year is
    below 2023, with the list as the blocks before it left it, whatever
    follows that block; the pass then returns without another call to the
    browser; and on the blocks "Jan 2023", "Dec 2022" it returns the one
    review of Jan 2023. *)
Theorem temporal_cutoff :
  (forall W (D : Driver W) fuel w rs w' evs,
     collect_reviews fuel w = (Ok rs, w', evs) ->
     Forall (fun r => exists y, line_year (r_date r) = Some y /\ (2023 <= y)%Z) rs) /\
  (forall pre block post acc acc1 y,
     review_blocks_loop pre acc = Ok (acc1, false) ->
     block_year block = Some y -> (y < 2023)%Z ->
     review_blocks_loop (pre ++ block :: post) acc = Ok (acc1, true)) /\
  (forall W (D : Driver W) fuel acc w blocks w1 acc1,
     drv_find_elements CLASS_NAME (lit "review") w = (Ok blocks, w1) ->
     review_blocks_loop blocks acc = Ok (acc1, true) ->
     reviews_loop (S fuel) acc w =
       (Ok acc1, w1, [EvFindAll CLASS_NAME (lit "review")])) /\
  (forall W (D : Driver W) fuel w w1 w2 w3 b1 b2 rest n,
     drv_get reviews_url w = (Ok tt, w1) ->
     os_sleep 2 w1 = (Ok tt, w2) ->
     drv_find_elements CLASS_NAME (lit "review") w2 = (Ok (b1 :: b2 :: rest), w3) ->
     text b1 = Ok (lit "Jan 2023") -> star_paths b1 = Ok n ->
     text b2 = Ok (lit "Dec 2022") ->
     collect_reviews (S fuel) w =
       (Ok [{| r_date := lit "Jan 2023"; r_text := lit "Jan 2023";
               r_rating := rating_of (Ok n) |}],
        w3,
        [EvGet reviews_url; EvSleep 2; EvFindAll CLASS_NAME (lit "review")])).
Proof.
  assert (Hstop : forall W (D : Driver W) fuel acc w blocks w1 acc1,
     drv_find_elements CLASS_NAME (lit "review") w = (Ok blocks, w1) ->
     review_blocks_loop blocks acc = Ok (acc1, true) ->
     reviews_loop (S fuel) acc w =
       (Ok acc1, w1, [EvFindAll CLASS_NAME (lit "review")])).
  { intros W D fuel acc w blocks w1 acc1 Hf Hs. cbn [reviews_loop].
    unfold find_elements. run_call. unfold bind at 1, lift. rewrite Hs. reflexivity. }
  split; [|split; [|split]].
  - intros W D fuel w rs w' evs E.
    now destruct (collect_reviews_ok fuel _ E) as (_ & H & _).
  - intros pre block post acc acc1 y Hpre Hy Hlt.
    rewrite review_blocks_loop_app with (acc1 := acc1) by exact Hpre. simpl.
    now rewrite (review_block_cutoff _ acc1 Hy Hlt).
  - exact Hstop.
  - intros W D fuel w w1 w2 w3 b1 b2 rest n Hg Hsl Hf Ht1 Hn Ht2.
    unfold collect_reviews, get, sleep. run_call. run_call.
    rewrite (Hstop _ _ _ _ _ _ _ [{| r_date := lit "Jan 2023"; r_text := lit "Jan 2023";
                                    r_rating := rating_of (Ok n) |}] Hf); [reflexivity|].
    assert (H2 : block_year b2 = Some 2022%Z).
    { unfold block_year. rewrite Ht2. vm_compute. reflexivity. }
    assert (H1 : review_block b1 [] =
                 Ok (Next [{| r_date := lit "Jan 2023"; r_text := lit "Jan 2023";
                              r_rating := int_or (Z.min (Z.of_nat n) 5) 5 |}])).
    { destruct b1 as [t1 s1 d1]. simpl in Ht1, Hn. subst t1 s1.
      vm_compute. reflexivity. }
    cbn [review_blocks_loop]. rewrite H1. cbn [obind].
    replace (int_or (Z.min (Z.of_nat n) 5) 5) with (rating_of (Ok n)).
    2:{ symmetry. rewrite <- Hn. apply extract_star_rating_rating_of.
        unfold extract_star_rating. now rewrite Hn. }
    now rewrite (review_block_cutoff _ _ H2).
Qed.

(** The first line showing a year token is the one [find_date] keeps. *)
Lemma find_date_first pre : forall line post,
  (forall l, In l pre -> ~ has_substring year_token l) ->
  has_substring year_token line ->
  exists y, find_date (pre ++ line :: post) = Ok (Some y, Some line) /\
            line_year line = Some y /\ (2000 <= y <= 2099)%Z.
Proof.
  induction pre as [|l0 pre IH]; intros line post Hpre Hline; simpl.
  - unfold line_year. destruct (search year_re line) as [[b m]|] eqn:E.
    + destruct (search_year_some _ E) as (_ & _ & y & Hy & Hr).
      exists y. simpl. rewrite Hy. auto.
    + apply search_year_none_iff in E. contradiction.
  - assert (E : search year_re l0 = None).
    { apply search_year_none_iff, Hpre. now left. }
    rewrite E. apply IH; [|assumption]. intros l Hl. apply Hpre. now right.
Qed.

(** C10: Dated blocks.  A block is dated exactly when one of its lines
    contains '20' followed by two digits; the date is the first such line
    and its year lies in 2000..2099; a block with no such line - one whose
    only year is 1999, say - leaves the list as it was and does not stop
    the scan. *)
Theorem dated_blocks :
  (forall lines,
     (forall l, In l lines -> ~ has_substring year_token l) ->
     find_date lines = Ok (None, None)) /\
  (forall pre line post,
     (forall l, In l pre -> ~ has_substring year_token l) ->
     has_substring year_token line ->
     exists y, find_date (pre ++ line :: post) = Ok (Some y, Some line) /\
               line_year line = Some y /\ (2000 <= y <= 2099)%Z) /\
  (forall block acc r,
     review_block block acc = Ok (Next (acc ++ [r])) ->
     exists t y, text block = Ok t /\
                 find_date (split_lines (strip t)) = Ok (Some y, Some (r_date r))) /\
  (forall block acc t,
     text block = Ok t ->
     (forall l, In l (split_lines (strip t)) -> ~ has_substring year_token l) ->
     review_block block acc = Ok (Next acc) /\ block_year block = None) /\
  (forall block acc,
     text block = Ok (lit "Dec 1999") ->
     review_block block acc = Ok (Next acc) /\ block_year block = None).
Proof.
  assert (Hund : forall block acc t,
     text block = Ok t ->
     (forall l, In l (split_lines (strip t)) -> ~ has_substring year_token l) ->
     review_block block acc = Ok (Next acc) /\ block_year block = None).
  { intros block acc t Ht Hno. split; [now apply review_block_undated with t|].
    unfold block_year. rewrite Ht.
    destruct (find_date_cases (split_lines (strip t)))
      as [[Hf _]|(pre & line & post & y & El & _ & _ & Hy & _)].
    - now rewrite Hf.
    - exfalso. assert (Hin : In line (split_lines (strip t))) by (rewrite El; apply in_elt).
      apply Hno, search_year_none_iff in Hin. unfold line_year in Hy.
      rewrite Hin in Hy. discriminate. }
  split; [|split; [|split; [|split]]].
  - intros lines Hno.
    destruct (find_date_cases lines)
      as [[Hf _]|(pre & line & post & y & El & _ & _ & Hy & _)]; [assumption|].
    exfalso. assert (Hin : In line lines) by (rewrite El; apply in_elt).
    apply Hno, search_year_none_iff in Hin. unfold line_year in Hy.
    rewrite Hin in Hy. discriminate.
  - intros pre line post. apply find_date_first.
  - intros block acc r E. pose proof (review_block_step block acc) as Hs.
    rewrite E in Hs. inversion Hs as [Ha|r0 y t Ht Hfd Hmx Htk Hby Hly Hy Hr Ha| |o Ho Ha].
    + exfalso. apply (f_equal (@length Review)) in Ha.
      rewrite length_app in Ha. simpl in Ha. lia.
    + apply app_inv_head in Ha. injection Ha as ->. eauto.
    + contradiction.
  - exact Hund.
  - intros block acc Ht. apply Hund with (lit "Dec 1999"); [assumption|].
    intros l Hin. apply search_year_none_iff.
    replace (split_lines (strip (lit "Dec 1999"))) with [lit "Dec 1999"] in Hin
      by (vm_compute; reflexivity).
    destruct Hin as [<-|[]]. vm_compute. reflexivity.
Qed.

Ltac invert_lang :=
  repeat match goal with
         | H : lang (_ :: _) _ |- _ => inversion H; subst; clear H
         | H : lang [] _ |- _ => inversion H; subst; clear H
         | H : item_lang _ _ |- _ => inversion H; subst; clear H
         | H : is_char _ _ = true |- _ => apply is_char_true in H; subst
         end.

(** A match of the price pattern ends in digits, a point and two digits. *)
Lemma lang_price_shape m : lang price_re m -> has_substring price_shape m.
Proof.
  unfold price_re. intros H.
  inversion H as [|i r m1 r1 Hopt H1]; subst; clear H.
  inversion H1 as [|i r m2 r2 Hsp H2]; subst; clear H1.
  inversion H2 as [|i r m3 r3 Hds H3]; subst; clear H2.
  inversion Hds as [| | | |p c ds Hc Hall]; subst; clear Hds.
  clear Hopt Hsp. invert_lang.
  match goal with
  | |- has_substring _ (m1 ++ m2 ++ (c :: ds) ++ [dot] ++ [?a] ++ [?b] ++ []) =>
      exists (m1 ++ m2), ((c :: ds) ++ [dot; a; b]), []; split;
        [now rewrite <- !app_assoc|exists [], (c :: ds), a, b]
  end.
  repeat split; try assumption.
  - now left.
  - discriminate.
  - simpl. now rewrite Hc, Hall.
Qed.

(** A string of that shape is matched by the price pattern. *)
Lemma price_shape_lang m : price_shape m -> lang price_re m.
Proof.
  intros (cur & ds & a & b & -> & Hcur & Hne & Hds & Ha & Hb).
  destruct ds as [|d ds]; [congruence|]. simpl in Hds.
  apply andb_true_iff in Hds. destruct Hds as [Hd Hds].
  unfold price_re.
  change (cur ++ (d :: ds) ++ [dot; a; b])
    with (cur ++ [] ++ (d :: ds) ++ [dot] ++ [a] ++ [b] ++ []).
  constructor.
  { destruct Hcur as [->|(c & -> & Hc)]; now constructor. }
  constructor; [now constructor|].
  constructor; [now constructor|].
  constructor; [constructor; apply N.eqb_refl|].
  constructor; [now constructor|].
  constructor; [now constructor|constructor].
Qed.

Lemma no_price_shape t : search price_re t = None -> ~ has_substring price_shape t.
Proof.
  intros H (pre & m & post & E & Hm). apply search_none_iff in H. apply H.
  exists pre, m, post. split; [assumption|]. now apply price_shape_lang.
Qed.

(** C3: Price sentinel, as the code has it.  When no substring of the
    card text is an optional currency symbol, digits, a decimal point and
    two digits, the price is the sentinel "N/A"; so for "Widget / out of
    stock", while "Widget / $12.99 in stock" gives "$12.99". *)
Theorem price_sentinel :
  (forall t, ~ has_substring price_shape t -> card_price (strip t) = lit "N/A") /\
  (forall card ps n t p,
     text card = Ok t -> ~ has_substring price_shape t ->
     product_card card (ps, n) = Ok (ps ++ [p], S n) ->
     p_price p = lit "N/A") /\
  card_price (strip (lit "Widget" ++ newline :: lit "out of stock")) = lit "N/A" /\
  card_price (strip (lit "Widget" ++ newline :: lit "$12.99 in stock")) = lit "$12.99".
Proof.
  assert (Hna : forall t, ~ has_substring price_shape t ->
                          card_price (strip t) = lit "N/A").
  { intros t Hno. unfold card_price.
    destruct (search price_re (strip t)) as [[b m]|] eqn:E; [|reflexivity].
    exfalso. apply Hno, has_substring_strip.
    destruct (search_sound _ _ E) as (post & Es & L).
    destruct (lang_price_shape L) as (pre' & m' & post' & -> & Hp).
    exists (b ++ pre'), m', (post' ++ post). split; [|assumption].
    rewrite Es. now rewrite <- !app_assoc. }
  split; [exact Hna|split; [|split]].
  - intros card ps n t p Ht Hno E. apply product_card_ok in E.
    unfold product_step, candidate in E. rewrite Ht in E. cbn [fst snd] in E.
    destruct (hd_error (split_lines (strip t))) as [title|].
    2:{ injection E as E _. apply (f_equal (@length Product)) in E.
        rewrite length_app in E. simpl in E. lia. }
    destruct (truthy title && _).
    2:{ injection E as E _. apply (f_equal (@length Product)) in E.
        rewrite length_app in E. simpl in E. lia. }
    cbn [p_title] in E. destruct (title_taken ps title).
    { injection E as E _. apply (f_equal (@length Product)) in E.
      rewrite length_app in E. simpl in E. lia. }
    injection E as E. apply app_inv_head in E. injection E as ->.
    simpl. now apply Hna.
  - vm_compute. reflexivity.
  - vm_compute. reflexivity.
Qed.

(** One turn of the products loop, once the page is known. *)
Lemma products_loop_step W (D : Driver W) fuel n acc w page w' :
  serves w n page w' ->
  products_loop (S fuel) n acc w =
    (let '(r, w2, ev2) :=
       match page with
       | [] => ret acc
       | _ :: _ =>
           bind (lift (product_cards_loop page (acc, 0)))
                (fun st => if (snd st =? 0)%nat then ret (fst st)
                           else products_loop fuel (S n) (fst st))
       end w' in
     (r, w2, fetch_events n ++ ev2)).
Proof.
  intros (w1 & w2 & Hg & Hs & Hf). cbn [products_loop].
  unfold get, sleep, find_elements. run_call. run_call. run_call.
  destruct page as [|c page]; [reflexivity|].
  match goal with |- context [bind ?m ?k w'] => destruct (bind m k w') as [[r w3] ev3] end.
  reflexivity.
Qed.

(** C6: Numbered-page termination.  The products pass stops at a page,
    fetching nothing further, exactly when the page has no card or adds no
    record; otherwise it goes on with the next page.  On three pages, the
    first two each adding a record and the third offering only titles of
    the second, it returns the titles of pages 1 and 2, each once, having
    fetched pages 1, 2 and 3. *)
Theorem numbered_page_termination :
  (forall W (D : Driver W) fuel n acc w page w' acc' newly,
     serves w n page w' ->
     product_cards_loop page (acc, 0) = Ok (acc', newly) ->
     page = [] \/ newly = 0 ->
     products_loop (S fuel) n acc w = (Ok acc', w', fetch_events n)) /\
  (forall W (D : Driver W) fuel n acc w page w' acc' newly,
     serves w n page w' ->
     product_cards_loop page (acc, 0) = Ok (acc', newly) ->
     page <> [] -> newly <> 0 ->
     products_loop (S fuel) n acc w =
       (let '(r, w2, evs) := products_loop fuel (S n) acc' w' in
        (r, w2, fetch_events n ++ evs))) /\
  (forall W (D : Driver W) fuel w0 w1 w2 w3 page1 page2 page3,
     serves w0 1 page1 w1 -> serves w1 2 page2 w2 -> serves w2 3 page3 w3 ->
     readable page1 -> readable page2 -> readable page3 ->
     titles page1 <> [] ->
     (exists t, In t (titles page2) /\ ~ In t (titles page1)) ->
     incl (titles page3) (titles page2) ->
     exists ps,
       collect_products (3 + fuel) w0 =
         (Ok ps, w3, fetch_events 1 ++ fetch_events 2 ++ fetch_events 3) /\
       NoDup (map p_title ps) /\
       (forall t, In t (map p_title ps) <->
                  In t (titles page1) \/ In t (titles page2))).
Proof.
  assert (Hstop : forall W (D : Driver W) fuel n acc w page w' acc' newly,
     serves w n page w' ->
     product_cards_loop page (acc, 0) = Ok (acc', newly) ->
     page = [] \/ newly = 0 ->
     products_loop (S fuel) n acc w = (Ok acc', w', fetch_events n)).
  { intros W D fuel n acc w page w' acc' newly Hs Hl Hc.
    rewrite (products_loop_step fuel acc Hs).
    destruct page as [|c page].
    - simpl in Hl. injection Hl as <- _. unfold ret. now rewrite app_nil_r.
    - destruct Hc as [Hc|Hc]; [discriminate|]. subst newly.
      unfold bind, lift. rewrite Hl. cbn. reflexivity. }
  assert (Hnext : forall W (D : Driver W) fuel n acc w page w' acc' newly,
     serves w n page w' ->
     product_cards_loop page (acc, 0) = Ok (acc', newly) ->
     page <> [] -> newly <> 0 ->
     products_loop (S fuel) n acc w =
       (let '(r, w2, evs) := products_loop fuel (S n) acc' w' in
        (r, w2, fetch_events n ++ evs))).
  { intros W D fuel n acc w page w' acc' newly Hs Hl Hp Hn.
    rewrite (products_loop_step fuel acc Hs).
    destruct page as [|c page]; [congruence|].
    unfold bind at 1, lift. rewrite Hl. cbn [fst snd].
    destruct newly as [|k]; [congruence|]. cbn [Nat.eqb].
    destruct (products_loop fuel (S n) acc' w') as [[r w2] evs]. reflexivity. }
  split; [exact Hstop|split; [exact Hnext|]].
  intros W D fuel w0 w1 w2 w3 page1 page2 page3 S1 S2 S3 R1 R2 R3 Hne (t & Ht2 & Ht1) Hincl.
  set (step := fun (s : list Product * nat) c => product_step c s).
  set (st1 := fold_left step page1 ([], 0)).
  set (st2 := fold_left step page2 (fst st1, 0)).
  pose proof (product_cards_loop_readable ([], 0) R1) as L1. fold step st1 in L1.
  pose proof (product_cards_loop_readable (fst st1, 0) R2) as L2. fold step st2 in L2.
  pose proof (product_cards_loop_readable (fst st2, 0) R3) as L3. fold step in L3.
  destruct (fold_product_step_count page1 ([], 0)) as (_ & C1 & _). fold step st1 in C1.
  destruct (fold_product_step_count page2 (fst st1, 0)) as (_ & C2 & _). fold step st2 in C2.
  destruct (fold_product_step_count page3 (fst st2, 0)) as (_ & C3 & F3). fold step in C3, F3.
  pose proof (fold_product_step_titles page1 ([], 0)) as T1. fold step st1 in T1.
  pose proof (fold_product_step_titles page2 (fst st1, 0)) as T2. fold step st2 in T2.
  cbn [fst snd map] in *.
  assert (N1 : snd st1 <> 0).
  { intros H. apply C1 in H. destruct (titles page1) as [|x l]; [congruence|].
    apply (H x). now left. }
  assert (P1 : page1 <> []) by (intros ->; now apply Hne).
  assert (N2 : snd st2 <> 0).
  { intros H. apply C2 in H. apply H, T1 in Ht2. simpl in Ht2. tauto. }
  assert (P2 : page2 <> []) by (intros ->; exact Ht2).
  assert (Z3 : snd (fold_left step page3 (fst st2, 0)) = 0).
  { apply C3. intros x Hx. apply T2. right. now apply Hincl. }
  exists (fst st2). split; [|split].
  - unfold collect_products. cbn [Nat.add].
    rewrite (Hnext _ _ _ _ _ _ _ _ (fst st1) (snd st1) S1); try assumption;
      [|now destruct st1].
    rewrite (Hnext _ _ _ _ _ _ _ _ (fst st2) (snd st2) S2); try assumption;
      [|now destruct st2].
    rewrite (Hstop _ _ _ _ _ _ _ _ (fst st2) 0 S3); [reflexivity| |now right].
    rewrite L3. rewrite <- (F3 Z3) at 2. rewrite <- Z3 at 3.
    now destruct (fold_left step page3 (fst st2, 0)).
  - apply (fold_product_step_nodup page2 (fst st1, 0)).
    apply (fold_product_step_nodup page1 ([], 0)). constructor.
  - intros x. rewrite T2, T1. simpl. tauto.
Qed.

(** C7: Load-more degradation.  When the load-more control is absent
    (looking it up raises), or is not displayed, or the wait for more
    blocks times out, the [try] around the control answers "stop"; the
    review pass then returns the reviews it holds, without raising. *)
Theorem load_more_degradation :
  (forall W (D : Driver W) n w e w1,
     drv_find_element ID (lit "page-load-more") w = (Raise e, w1) ->
     is_Exception e = true ->
     load_more_step n w = (Ok false, w1, [EvFindOne ID (lit "page-load-more")])) /\
  (forall W (D : Driver W) n w load_more w1,
     drv_find_element ID (lit "page-load-more") w = (Ok load_more, w1) ->
     is_displayed load_more = Ok false ->
     load_more_step n w = (Ok false, w1, [EvFindOne ID (lit "page-load-more")])) /\
  (forall W (D : Driver W) n w load_more w1 v w2 w3,
     drv_find_element ID (lit "page-load-more") w = (Ok load_more, w1) ->
     is_displayed load_more = Ok true ->
     drv_execute_script click_script [load_more] w1 = (Ok v, w2) ->
     drv_wait_until_more n w2 = (Raise TimeoutException, w3) ->
     load_more_step n w =
       (Ok false, w3,
        [EvFindOne ID (lit "page-load-more"); EvScript click_script; EvWait n])) /\
  (forall W (D : Driver W) fuel acc w blocks w1 acc1 v w2 w3 w4 evs,
     drv_find_elements CLASS_NAME (lit "review") w = (Ok blocks, w1) ->
     review_blocks_loop blocks acc = Ok (acc1, false) ->
     drv_execute_script scroll_script [] w1 = (Ok v, w2) ->
     os_sleep 1 w2 = (Ok tt, w3) ->
     load_more_step (length blocks) w3 = (Ok false, w4, evs) ->
     reviews_loop (S fuel) acc w =
       (Ok acc1, w4,
        [EvFindAll CLASS_NAME (lit "review"); EvScript scroll_script; EvSleep 1]
          ++ evs)).
Proof.
  split; [|split; [|split]].
  - intros W D n w e w1 Hf He. unfold load_more_step, try_except, find_element.
    erewrite bind_raise by (apply call_eq; eassumption). now rewrite He.
  - intros W D n w lm w1 Hf Hd. unfold load_more_step, try_except, find_element.
    run_call. unfold bind, lift. rewrite Hd. reflexivity.
  - intros W D n w lm w1 v w2 w3 Hf Hd Hc Hw.
    unfold load_more_step, try_except, find_element, execute_script, wait_until_more.
    run_call. unfold bind at 1, lift. rewrite Hd. cbn [negb].
    run_call. erewrite bind_raise by (apply call_eq; eassumption). reflexivity.
  - intros W D fuel acc w blocks w1 acc1 v w2 w3 w4 evs Hf Hl Hs Hsl Hlm.
    cbn [reviews_loop]. unfold find_elements, execute_script, sleep.
    run_call. unfold bind at 1, lift. rewrite Hl. cbn [fst snd].
    run_call. run_call. unfold bind, ret. rewrite Hlm. cbn. now rewrite app_nil_r.
Qed.

(** The passes neither quit the driver nor write the document. *)
Lemma collect_all_emits W (D : Driver W) fuel :
  emits (collect_all (W:=W) fuel)
        (fun ev => is_dump ev = false /\ is_quit ev = false).
Proof.
  assert (Hp : forall f n acc, emits (products_loop (W:=W) f n acc)
                                 (fun ev => is_dump ev = false /\ is_quit ev = false)).
  { induction f as [|f IH]; intros n acc; cbn [products_loop].
    - apply emits_diverge.
    - apply emits_bind; [now apply emits_call|intros _].
      apply emits_bind; [now apply emits_call|intros _].
      apply emits_bind; [now apply emits_call|intros cards].
      destruct cards; [apply emits_ret|].
      apply emits_bind; [apply emits_lift|]. intros st.
      destruct (snd st =? 0)%nat; [apply emits_ret|apply IH]. }
  assert (Hlm : forall n, emits (load_more_step (W:=W) n)
                            (fun ev => is_dump ev = false /\ is_quit ev = false)).
  { intros n. unfold load_more_step. apply emits_try_except; [|apply emits_ret].
    apply emits_bind; [now apply emits_call|intros lm].
    apply emits_bind; [apply emits_lift|intros shown].
    destruct (negb shown); [apply emits_ret|].
    repeat (apply emits_bind; [now apply emits_call|intros ?]). apply emits_ret. }
  assert (Hr : forall f acc, emits (reviews_loop (W:=W) f acc)
                               (fun ev => is_dump ev = false /\ is_quit ev = false)).
  { induction f as [|f IH]; intros acc; cbn [reviews_loop].
    - apply emits_diverge.
    - apply emits_bind; [now apply emits_call|intros blocks].
      apply emits_bind; [apply emits_lift|intros st].
      destruct (snd st); [apply emits_ret|].
      repeat (apply emits_bind; [now apply emits_call|intros ?]).
      apply emits_bind; [apply Hlm|intros again].
      destruct again; [apply IH|apply emits_ret]. }
  assert (Hs : forall f h, emits (scroll_loop (W:=W) f h)
                             (fun ev => is_dump ev = false /\ is_quit ev = false)).
  { induction f as [|f IH]; intros h; cbn [scroll_loop].
    - apply emits_diverge.
    - repeat (apply emits_bind; [now apply emits_call|intros ?]).
      destruct (value_eqb _ _); [apply emits_ret|apply IH]. }
  unfold collect_all, collect_products, collect_reviews, collect_testimonials.
  apply emits_bind; [apply Hp|intros ps].
  apply emits_bind.
  { repeat (apply emits_bind; [now apply emits_call|intros ?]). apply Hr. }
  intros rs. apply emits_bind; [|intros ts; apply emits_ret].
  repeat (apply emits_bind; [now apply emits_call|intros ?]).
  apply emits_bind; [apply Hs|intros ?].
  apply emits_bind; [now apply emits_call|intros ?]. apply emits_lift.
Qed.

Lemma no_dump_in evs :
  Forall (fun ev => is_dump ev = false /\ is_quit ev = false) evs ->
  existsb is_dump evs = false.
Proof.
  induction 1 as [|ev evs [Hd _] _ IH]; [reflexivity|]. simpl. now rewrite Hd, IH.
Qed.

(** C8: All or nothing, with the driver released.  A pass that raises
    makes the collection raise, the later passes not run.  Whether the
    collection raises or returns, [driver.quit()] is then applied to the
    world the collection left and the run goes on from the world it
    leaves: after a raise the run fails (with the exception of the pass,
    or that of [quit] when it raises too) and nothing is written; after a
    return the document is written only once [quit] has returned, and not
    at all when [quit] raises.  In any run whose trace holds a write, all
    three passes had returned and the driver had been quit. *)
Theorem all_or_nothing :
  (forall W (D : Driver W) fuel w0 e w1 ev1,
     collect_products fuel w0 = (Raise e, w1, ev1) ->
     collect_all fuel w0 = (Raise e, w1, ev1)) /\
  (forall W (D : Driver W) fuel w0 ps w1 ev1 e w2 ev2,
     collect_products fuel w0 = (Ok ps, w1, ev1) ->
     collect_reviews fuel w1 = (Raise e, w2, ev2) ->
     collect_all fuel w0 = (Raise e, w2, ev1 ++ ev2)) /\
  (forall W (D : Driver W) fuel w0 ps w1 ev1 rs w2 ev2 e w3 ev3,
     collect_products fuel w0 = (Ok ps, w1, ev1) ->
     collect_reviews fuel w1 = (Ok rs, w2, ev2) ->
     collect_testimonials fuel w2 = (Raise e, w3, ev3) ->
     collect_all fuel w0 = (Raise e, w3, ev1 ++ ev2 ++ ev3)) /\
  (forall W (D : Driver W) fuel w w0 e w1 ec rq w2,
     drv_start w = (Ok tt, w0) ->
     collect_all fuel w0 = (Raise e, w1, ec) ->
     drv_quit w1 = (rq, w2) ->
     run_scraper fuel w =
       (match rq with
        | Ok _ => Raise e
        | Raise e' => Raise e'
        | Diverge => Diverge
        end, w2, EvStart :: ec ++ [EvQuit]) /\
     existsb is_dump (EvStart :: ec ++ [EvQuit]) = false) /\
  (forall W (D : Driver W) fuel w w0 doc w1 ec rq w2,
     drv_start w = (Ok tt, w0) ->
     collect_all fuel w0 = (Ok doc, w1, ec) ->
     drv_quit w1 = (rq, w2) ->
     run_scraper fuel w =
       match rq with
       | Ok _ =>
           let '(rd, w3) := os_dump output_file doc w2 in
           (rd, w3, EvStart :: ec ++ [EvQuit; EvDump output_file doc])
       | Raise e' => (Raise e', w2, EvStart :: ec ++ [EvQuit])
       | Diverge => (Diverge, w2, EvStart :: ec ++ [EvQuit])
       end /\
     existsb is_dump ec = false) /\
  (forall W (D : Driver W) fuel w r w' evs,
     run_scraper fuel w = (r, w', evs) ->
     existsb is_dump evs = true ->
     exists w0 doc w1 ec w2,
       drv_start w = (Ok tt, w0) /\
       collect_all fuel w0 = (Ok doc, w1, ec) /\
       drv_quit w1 = (Ok tt, w2) /\
       os_dump output_file doc w2 = (r, w') /\
       evs = EvStart :: ec ++ [EvQuit; EvDump output_file doc]).
Proof.
  split; [|split; [|split; [|split; [|split]]]].
  - intros W D fuel w0 e w1 ev1 H. unfold collect_all. now apply bind_raise.
  - intros W D fuel w0 ps w1 ev1 e w2 ev2 H1 H2. unfold collect_all.
    erewrite bind_ok by exact H1. now erewrite bind_raise by exact H2.
  - intros W D fuel w0 ps w1 ev1 rs w2 ev2 e w3 ev3 H1 H2 H3. unfold collect_all.
    erewrite bind_ok by exact H1. erewrite bind_ok by exact H2.
    erewrite bind_raise by exact H3. reflexivity.
  - intros W D fuel w w0 e w1 ec rq w2 Hs Hc Hq.
    pose proof (no_dump_in (collect_all_emits D fuel _ Hc)) as Hnd.
    split; [|simpl; rewrite existsb_app, Hnd; reflexivity].
    unfold run_scraper, init_browser, start. run_call.
    unfold bind at 1, try_finally. rewrite Hc. unfold quit, call. rewrite Hq.
    destruct rq as [u|e'|]; reflexivity.
  - intros W D fuel w w0 doc w1 ec rq w2 Hs Hc Hq.
    pose proof (no_dump_in (collect_all_emits D fuel _ Hc)) as Hnd.
    split; [|exact Hnd].
    unfold run_scraper, init_browser, start. run_call.
    unfold bind at 1, try_finally. rewrite Hc. unfold quit, call at 1. rewrite Hq.
    destruct rq as [u|e'|]; try reflexivity.
    unfold dump, call. destruct (os_dump output_file doc w2) as [rd wd].
    cbn [app]. now rewrite <- app_assoc.
  - intros W D fuel w r w' evs Hrun Hd.
    unfold run_scraper, init_browser, start, bind at 1, call at 1 in Hrun.
    destruct (drv_start w) as [[[]|e|] w0] eqn:Hs;
      try (injection Hrun as _ _ <-; discriminate).
    unfold bind at 1, try_finally in Hrun.
    destruct (collect_all fuel w0) as [[[doc|e|] w1] ec] eqn:Hc.
    + pose proof (no_dump_in (collect_all_emits D fuel _ Hc)) as Hnd.
      unfold quit, call at 1 in Hrun.
      destruct (drv_quit w1) as [[[]|e'|] w2] eqn:Hq.
      * unfold dump, call in Hrun.
        destruct (os_dump output_file doc w2) as [rd wd] eqn:Ho.
        injection Hrun as <- <- <-. exists w0, doc, w1, ec, w2.
        split; [reflexivity|]. split; [assumption|]. split; [assumption|].
        split; [assumption|]. cbn [app]. now rewrite <- app_assoc.
      * injection Hrun as _ _ <-. exfalso. simpl in Hd.
        rewrite existsb_app, Hnd in Hd. discriminate.
      * injection Hrun as _ _ <-. exfalso. simpl in Hd.
        rewrite existsb_app, Hnd in Hd. discriminate.
    + pose proof (no_dump_in (collect_all_emits D fuel _ Hc)) as Hnd.
      unfold quit, call in Hrun.
      destruct (drv_quit w1) as [[u|e'|] w2]; injection Hrun as _ _ <-;
        exfalso; simpl in Hd; rewrite existsb_app, Hnd in Hd; discriminate.
    + pose proof (no_dump_in (collect_all_emits D fuel _ Hc)) as Hnd.
      injection Hrun as _ _ <-. exfalso. simpl in Hd. congruence.
Qed.

End Claims.

(** * Runs on the scripted site *)

Section Runs.
Import Py Re Scraper Spec Fixture.

Lemma shop_products_run :
  exists evs, collect_products 5 (open_at shop) =
              (Ok shop_products, on_page shop 3, evs).
Proof. eexists. vm_compute. reflexivity. Qed.

Lemma shop_reviews_run :
  exists b evs, collect_reviews 5 (open_at shop) = (Ok shop_reviews, b, evs).
Proof. eexists. eexists. vm_compute. reflexivity. Qed.

Lemma shop_testimonials_run :
  exists b evs, collect_testimonials 5 (open_at shop) = (Ok shop_testimonials, b, evs).
Proof. eexists. eexists. vm_compute. reflexivity. Qed.

(** Witness of C1 on the scripted site. *)
Lemma temporal_cutoff_witness :
  Forall (fun r => exists y, line_year (r_date r) = Some y /\ (2023 <= y)%Z)
         shop_reviews /\
  collect_reviews 1 (open_at two_reviews) =
    (Ok [{| r_date := lit "Jan 2023"; r_text := lit "Jan 2023"; r_rating := 5 |}],
     on_reviews two_reviews,
     [EvGet reviews_url; EvSleep 2; EvFindAll CLASS_NAME (lit "review")]).
Proof.
  destruct (@temporal_cutoff ascii_tables) as (Hinv & _ & _ & Hscen). split.
  - destruct shop_reviews_run as (b & evs & E). exact (Hinv _ _ _ _ _ _ _ E).
  - apply (Hscen Browser scripted 0%nat (open_at two_reviews)
             (on_reviews two_reviews) (on_reviews two_reviews) (on_reviews two_reviews)
             (element ["Jan 2023"%string] 0) (element ["Dec 2022"%string] 0) [] 0%nat);
      reflexivity.
Defined.

(** Witness of C2 on the scripted site. *)
Lemma dedup_unique_witness :
  NoDup (map p_title shop_products) /\
  NoDup (map r_text shop_reviews) /\
  NoDup (map t_text shop_testimonials) /\
  testimonial_card (element ["Great shop"%string] 3) shop_testimonials =
    Ok shop_testimonials.
Proof.
  destruct (@dedup_unique ascii_tables) as (Hp & Hr & Ht & _ & _ & Hdrop).
  split; [|split; [|split]].
  - destruct shop_products_run as (evs & E). exact (Hp _ _ _ _ _ _ _ E).
  - destruct shop_reviews_run as (b & evs & E). exact (Hr _ _ _ _ _ _ _ E).
  - destruct shop_testimonials_run as (b & evs & E). exact (Ht _ _ _ _ _ _ _ E).
  - apply Hdrop with (raw := lit "Great shop"); [reflexivity|].
    vm_compute. left. reflexivity.
Defined.

(** Counterexample to C3 as stated: the sentinel is not "unavailable". *)
Lemma price_sentinel_counterexample :
  (exists evs,
     collect_products 3 (open_at widgets) =
       (Ok [{| p_title := lit "Widget"; p_price := lit "N/A" |};
            {| p_title := lit "Gadget"; p_price := lit "$12.99" |}],
        on_page widgets 2, evs)) /\
  card_price (strip (lit "Widget" ++ newline :: lit "out of stock"))
    <> lit "unavailable".
Proof.
  split.
  - eexists. vm_compute. reflexivity.
  - vm_compute. discriminate.
Qed.

(** Witness of C3, amended, on the text "Widget / out of stock". *)
Lemma price_sentinel_witness :
  card_price (strip (lit "Widget" ++ newline :: lit "out of stock")) = lit "N/A".
Proof.
  destruct (@price_sentinel ascii_tables) as (Hna & _).
  apply Hna. apply no_price_shape. vm_compute. reflexivity.
Defined.

(** Counterexample to C4 as stated: a testimonial of exactly 10 characters
    is returned. *)
Lemma testimonial_filter_counterexample :
  exists b evs ts,
    collect_testimonials 5 (open_at shop) = (Ok ts, b, evs) /\
    exists x, In x ts /\ t_text x = lit "Great shop" /\
              (length (t_text x) <= 10)%nat.
Proof.
  destruct shop_testimonials_run as (b & evs & E).
  exists b, evs, shop_testimonials. split; [exact E|].
  exists {| t_text := lit "Great shop"; t_rating := 4 |}.
  split; [now left|]. split; [reflexivity|]. vm_compute. lia.
Qed.

(** Witness of C4, amended, on the scripted site. *)
Lemma testimonial_filter_witness :
  testimonial_card (element ["Too short"%string] 5) [] = Ok [] /\
  Forall (fun x => (10 <= length (t_text x) <= 400)%nat /\
                   (~ exists pre post, t_text x = pre ++ lit "Take a look" ++ post) /\
                   (~ exists pre post, t_text x = pre ++ lit "collection" ++ post))
         shop_testimonials.
Proof.
  destruct (@testimonial_filter ascii_tables) as (Hrej & Hall). split.
  - apply Hrej with (raw := lit "Too short"); [reflexivity|].
    left. vm_compute. lia.
  - destruct shop_testimonials_run as (b & evs & E). exact (Hall _ _ _ _ _ _ _ E).
Defined.

(** Witness of C5 on the scripted site. *)
Lemma rating_rule_witness :
  extract_star_rating (element ["seven stars"%string] 7) = Ok 5%Z /\
  Forall (fun r => (0 <= r_rating r <= 5)%Z) shop_reviews /\
  Forall (fun x => (0 <= t_rating x <= 5)%Z) shop_testimonials.
Proof.
  destruct (@rating_rule ascii_tables) as (Hx & _ & _ & _ & Hr & Ht).
  split; [|split].
  - exact (Hx (element ["seven stars"%string] 7) 7%nat eq_refl).
  - destruct shop_reviews_run as (b & evs & E). exact (Hr _ _ _ _ _ _ _ E).
  - destruct shop_testimonials_run as (b & evs & E). exact (Ht _ _ _ _ _ _ _ E).
Defined.

(** Witness of C9 on the scripted site. *)
Lemma rating_at_least_one_witness :
  Forall (fun r => (1 <= r_rating r)%Z) shop_reviews /\
  Forall (fun x => (1 <= t_rating x)%Z) shop_testimonials.
Proof.
  destruct (@rating_at_least_one ascii_tables) as (_ & _ & _ & Hr & Ht). split.
  - destruct shop_reviews_run as (b & evs & E). exact (Hr _ _ _ _ _ _ _ E).
  - destruct shop_testimonials_run as (b & evs & E). exact (Ht _ _ _ _ _ _ _ E).
Defined.

(** Witness of C10: a block dated 1999 changes nothing. *)
Lemma dated_blocks_witness :
  review_block (element ["Dec 1999"%string] 3) shop_reviews = Ok (Next shop_reviews) /\
  block_year (element ["Dec 1999"%string] 3) = None.
Proof.
  destruct (@dated_blocks ascii_tables) as (_ & _ & _ & _ & H).
  apply H. reflexivity.
Defined.

Lemma shop_serves n page :
  nth_error (product_pages shop) n = Some page ->
  (n < 3)%nat ->
  forall b, site b = shop -> serves b (S n) page (on_page shop (S n)).
Proof.
  intros Hn Hlt [s l c sc] Hs. simpl in Hs. subst s.
  exists (on_page shop (S n)), (on_page shop (S n)).
  split; [reflexivity|split; [reflexivity|]].
  destruct n as [|[|[|n]]]; try lia; injection Hn as <-; vm_compute; reflexivity.
Qed.

(** Witness of C6: the three product pages of the scripted site. *)
Lemma numbered_page_termination_witness :
  exists ps,
    collect_products 5 (open_at shop) =
      (Ok ps, on_page shop 3, fetch_events 1 ++ fetch_events 2 ++ fetch_events 3) /\
    NoDup (map p_title ps) /\
    (forall t, In t (map p_title ps) <->
               In t (titles (nth 0 (product_pages shop) [])) \/
               In t (titles (nth 1 (product_pages shop) []))).
Proof.
  destruct (@numbered_page_termination ascii_tables) as (_ & _ & H).
  apply (H Browser scripted 2%nat (open_at shop) (on_page shop 1) (on_page shop 2)
           (on_page shop 3) _ _ (nth 2 (product_pages shop) [])).
  - apply shop_serves; [reflexivity|lia|reflexivity].
  - apply shop_serves; [reflexivity|lia|reflexivity].
  - apply shop_serves; [reflexivity|lia|reflexivity].
  - repeat constructor; intros [].
  - repeat constructor; intros [].
  - repeat constructor; intros [].
  - vm_compute. discriminate.
  - exists (lit "Teal Potion"). split.
    + vm_compute. left. reflexivity.
    + vm_compute. intros [H0|[H0|[]]]; discriminate.
  - intros x Hx. vm_compute in Hx. vm_compute.
    destruct Hx as [<-|[<-|[]]]; auto.
Defined.

(** Witness of C7: a reviews page without a load-more control. *)
Lemma load_more_degradation_witness :
  reviews_loop 1 [] (on_reviews quiet) =
    (Ok [{| r_date := lit "2023-05-18"; r_text := lit "Great value, tasty chocolate";
            r_rating := 5 |}],
     {| site := quiet; location := reviews_url; clicks := 0; scrolls := 1 |},
     [EvFindAll CLASS_NAME (lit "review"); EvScript scroll_script; EvSleep 1;
      EvFindOne ID (lit "page-load-more")]).
Proof.
  destruct (@load_more_degradation ascii_tables) as (Habsent & _ & _ & Hloop).
  apply (Hloop Browser scripted 0%nat [] (on_reviews quiet)
           [element ["2023-05-18"; "Great value, tasty chocolate"]%string 5]
           (on_reviews quiet) _ None
           {| site := quiet; location := reviews_url; clicks := 0; scrolls := 1 |}
           {| site := quiet; location := reviews_url; clicks := 0; scrolls := 1 |}
           {| site := quiet; location := reviews_url; clicks := 0; scrolls := 1 |}
           [EvFindOne ID (lit "page-load-more")]).
  - reflexivity.
  - vm_compute. reflexivity.
  - reflexivity.
  - reflexivity.
  - apply (Habsent Browser scripted 1%nat _ NoSuchElementException); reflexivity.
Defined.

(** Witness of C8: a driver that dies in the first pass, and a full run;
    in both the browser ends closed. *)
Lemma all_or_nothing_witness :
  (run_scraper (D := crashing) 3 (open_at shop) =
     (Raise WebDriverException, closed shop,
      EvStart :: fetch_events 1 ++ [EvQuit]) /\
   existsb is_dump (EvStart :: fetch_events 1 ++ [EvQuit]) = false) /\
  (exists ec,
     run_scraper (D := closing) 5 (open_at shop) =
       (Ok tt, closed shop,
        EvStart :: ec ++ [EvQuit; EvDump output_file shop_document]) /\
     existsb is_dump ec = false).
Proof.
  destruct (@all_or_nothing ascii_tables) as (_ & _ & _ & Hraise & Hok & _). split.
  - apply (Hraise Browser crashing 3%nat (open_at shop) (open_at shop)
             WebDriverException (on_page shop 1) (fetch_events 1) (Ok tt)
             (closed shop)).
    + reflexivity.
    + vm_compute. reflexivity.
    + reflexivity.
  - assert (Hc : exists ec,
               collect_all (D := closing) 5 (open_at shop) =
                 (Ok shop_document, on_testimonials shop 2, ec)).
    { eexists. vm_compute. reflexivity. }
    destruct Hc as (ec & Hc). exists ec.
    apply (Hok Browser closing 5%nat (open_at shop) (open_at shop) shop_document
             (on_testimonials shop 2) ec (Ok tt) (closed shop));
      [reflexivity|exact Hc|reflexivity].
Defined.

(** Counterexample to C6 as stated: page 3 repeats the titles of page 2,
    yet the pass stops after page 2 when page 2 only repeats page 1, and
    after page 1, with nothing collected, when page 1 offers no title. *)
Lemma numbered_page_termination_counterexample :
  (incl (titles (nth 2 (product_pages repeats) []))
        (titles (nth 1 (product_pages repeats) [])) /\
   collect_products 5 (open_at repeats) =
     (Ok [{| p_title := lit "Widget"; p_price := lit "$1.00" |}],
      on_page repeats 2, fetch_events 1 ++ fetch_events 2) /\
   ~ In (EvGet (products_url 3)) (fetch_events 1 ++ fetch_events 2)) /\
  (incl (titles (nth 2 (product_pages login_first) []))
        (titles (nth 1 (product_pages login_first) [])) /\
   collect_products 5 (open_at login_first) =
     (Ok [], on_page login_first 1, fetch_events 1) /\
   In (lit "Widget") (titles (nth 1 (product_pages login_first) []))).
Proof.
  split; (split; [|split]).
  - intros x Hx. exact Hx.
  - vm_compute. reflexivity.
  - vm_compute. intros H.
    repeat (destruct H as [H|H]; [discriminate|]). exact H.
  - intros x Hx. exact Hx.
  - vm_compute. reflexivity.
  - vm_compute. left. reflexivity.
Qed.

End Runs.

(** * Further properties of the code *)

(** ** More on strings and patterns *)

Section MoreStringFacts.
Import Py Re Spec.
Context {U : Unicode}.

Lemma split_lines_no_newline s : forall l, In l (split_lines s) -> ~ In newline l.
Proof.
  induction s as [|c s IH]; simpl.
  - intros l [<-|[]] [].
  - destruct (N.eqb_spec c newline) as [->|Hc].
    + intros l [<-|Hin]; [intros []|now apply IH].
    + destruct (split_lines s) as [|l0 ls] eqn:E.
      * intros l [<-|[]] [H|[]]. congruence.
      * intros l [<-|Hin].
        -- intros [H|H]; [congruence|]. apply (IH l0); [now left|assumption].
        -- apply IH. now right.
Qed.

(** The first line is a prefix of the string. *)
Lemma split_lines_head s : exists l ls rest, split_lines s = l :: ls /\ s = l ++ rest.
Proof.
  induction s as [|c s IH]; simpl.
  - exists [], [], []. auto.
  - destruct IH as (l & ls & rest & E & Hs). destruct (c =? newline)%N.
    + exists [], (split_lines s), (c :: s). auto.
    + rewrite E. exists (c :: l), ls, rest. simpl. split; [reflexivity|]. now f_equal.
Qed.

Lemma lstrip_head s c rest : lstrip s = c :: rest -> isspace c = false.
Proof.
  induction s as [|x s IH]; simpl; [discriminate|].
  destruct (isspace x) eqn:E; [assumption|]. now intros [= <- _].
Qed.

Lemma rstrip_last s c front : rstrip s = front ++ [c] -> isspace c = false.
Proof.
  unfold rstrip. intros H. apply (f_equal (@rev char)) in H.
  rewrite rev_involutive, rev_app_distr in H. simpl in H.
  exact (lstrip_head _ H).
Qed.

Lemma strip_head s c rest : strip s = c :: rest -> isspace c = false.
Proof.
  unfold strip. intros H. destruct (rstrip_prefix (lstrip s)) as [post E].
  rewrite H in E. simpl in E. exact (lstrip_head _ E).
Qed.

Lemma strip_last s c front : strip s = front ++ [c] -> isspace c = false.
Proof. unfold strip. apply rstrip_last. Qed.

Lemma strip_no_newline s : ~ In newline s -> ~ In newline (strip s).
Proof.
  intros H Hin. apply H. destruct (strip_infix s) as (pre & post & E).
  rewrite E. apply in_or_app. right. apply in_or_app. now left.
Qed.

Lemma replace_newlines_no_newline s : ~ In newline (replace_newlines s).
Proof.
  unfold replace_newlines. rewrite in_map_iff. intros (c & E & _).
  destruct (c =? newline)%N eqn:Hc; [discriminate E|].
  apply N.eqb_neq in Hc. congruence.
Qed.

Lemma max_by_len_spec lines best :
  max_by_len lines = Some best ->
  In best lines /\ forall l, In l lines -> (length l <= length best)%nat.
Proof.
  destruct lines as [|x rest]; [discriminate|]. simpl. intros [= <-].
  assert (G : forall rest x,
             In (fold_left longer rest x) (x :: rest) /\
             (length x <= length (fold_left longer rest x))%nat /\
             forall l, In l rest -> (length l <= length (fold_left longer rest x))%nat).
  { clear. induction rest as [|y rest IH]; intros x; simpl.
    - split; [now left|]. split; [lia|]. intros l [].
    - destruct (IH (longer x y)) as (Hin & Hle & Hall).
      assert (Hl : (length x <= length (longer x y) /\ length y <= length (longer x y))%nat).
      { unfold longer. destruct (Nat.ltb_spec (length x) (length y)); lia. }
      split.
      + destruct Hin as [Hin|Hin]; [|now right; right].
        rewrite <- Hin. unfold longer. destruct (length x <? length y)%nat; auto.
      + split; [lia|]. intros l [<-|Hl']; [lia|now apply Hall]. }
  destruct (G rest x) as (Hin & Hle & Hall). split; [assumption|].
  intros l [<-|Hl]; [assumption|now apply Hall].
Qed.

(** [max] keeps the first of the longest lines. *)
Lemma fold_longer_first rest : forall x,
  (fold_left longer rest x = x /\
   forall l, In l rest -> (length l <= length x)%nat) \/
  (exists pre post,
     rest = pre ++ fold_left longer rest x :: post /\
     (length x < length (fold_left longer rest x))%nat /\
     (forall l, In l pre -> (length l < length (fold_left longer rest x))%nat) /\
     (forall l, In l post -> (length l <= length (fold_left longer rest x))%nat)).
Proof.
  induction rest as [|y rest IH]; intros x; cbn [fold_left].
  - left. split; [reflexivity|]. intros l [].
  - assert (E : (length x < length y)%nat /\ longer x y = y \/
                (length y <= length x)%nat /\ longer x y = x).
    { unfold longer. destruct (Nat.ltb_spec (length x) (length y)); auto. }
    destruct E as [[Hlt ->]|[Hge ->]].
    + right. destruct (IH y) as [[He Hall]|(pre & post & Hr & Hl & Hpre & Hpost)].
      * exists [], rest. rewrite He. simpl. repeat split; try assumption. intros l [].
      * exists (y :: pre), post. simpl. split; [now f_equal|]. split; [lia|].
        split; [|assumption]. intros l [<-|Hin]; [assumption|now apply Hpre].
    + destruct (IH x) as [[He Hall]|(pre & post & Hr & Hl & Hpre & Hpost)].
      * left. split; [assumption|]. intros l [<-|Hin]; [assumption|now apply Hall].
      * right. exists (y :: pre), post. simpl. split; [now f_equal|]. split; [lia|].
        split; [|assumption]. intros l [<-|Hin]; [lia|now apply Hpre].
Qed.

Lemma max_by_len_first lines best :
  max_by_len lines = Some best ->
  exists pre post,
    lines = pre ++ best :: post /\
    (forall l, In l pre -> (length l < length best)%nat) /\
    (forall l, In l post -> (length l <= length best)%nat).
Proof.
  destruct lines as [|x rest]; [discriminate|]. simpl. intros [= <-].
  destruct (fold_longer_first rest x) as [[He Hall]|(pre & post & Hr & Hl & Hpre & Hpost)].
  - exists [], rest. rewrite He. simpl. repeat split; try assumption. intros l [].
  - exists (x :: pre), post. simpl. split; [now f_equal|].
    split; [|assumption]. intros l [<-|Hin]; [assumption|now apply Hpre].
Qed.

(** [re.search] returns the leftmost match. *)
Lemma search_from_leftmost r s : forall before b m,
  search_from r before s = Some (b, m) ->
  (length before <= length b)%nat /\
  forall b' m' post', s = b' ++ m' ++ post' -> lang r m' ->
                      (length b - length before <= length b')%nat.
Proof.
  induction s as [|c s IH]; intros before b m H; simpl in H.
  - destruct (match_here r []); [|discriminate]. injection H as <- _.
    rewrite length_rev. split; intros; lia.
  - destruct (match_here r (c :: s)) eqn:Hm.
    + injection H as <- _. rewrite length_rev. split; intros; lia.
    + destruct (IH _ _ _ H) as (Hle & Hall). simpl in Hle. split; [lia|].
      intros b' m' post' E L. destruct b' as [|x b'].
      * exfalso. simpl in E. rewrite E in Hm.
        now apply (match_here_complete L post').
      * injection E as _ E. specialize (Hall _ _ _ E L). simpl in *. lia.
Qed.

Lemma search_leftmost r s b m :
  search r s = Some (b, m) ->
  forall b' m' post', s = b' ++ m' ++ post' -> lang r m' -> (length b <= length b')%nat.
Proof.
  intros H b' m' post' E L.
  destruct (search_from_leftmost _ _ _ H) as (_ & Hall).
  specialize (Hall _ _ _ E L). simpl in Hall. lia.
Qed.

End MoreStringFacts.

(** ** More on computations *)

Section MoreMonadFacts.
Import Spec.
Context {W : Type}.

(** A bind either ran both parts, or stopped with the first. *)
Lemma bind_cases {A B} (m : M W A) (k : A -> M W B) w r w' evs :
  bind m k w = (r, w', evs) ->
  (exists a w1 ev1 ev2,
     m w = (Ok a, w1, ev1) /\ k a w1 = (r, w', ev2) /\ evs = ev1 ++ ev2) \/
  ((exists e, m w = (Raise e, w', evs) /\ r = Raise e) \/
   (m w = (Diverge, w', evs) /\ r = Diverge)).
Proof.
  unfold bind. destruct (m w) as [[[a|e|] w1] ev1].
  - destruct (k a w1) as [[r2 w2] ev2] eqn:E. intros [= <- <- <-].
    left. exists a, w1, ev1, ev2. auto.
  - intros [= <- <- <-]. right. left. eauto.
  - intros [= <- <- <-]. right. right. auto.
Qed.


Lemma call_inv {A} ev (f : W -> outcome A * W) w r w' evs :
  call ev f w = (r, w', evs) -> f w = (r, w') /\ evs = [ev].
Proof. unfold call. destruct (f w). now intros [= <- <- <-]. Qed.

Lemma ret_inv {A} (a : A) w r w' evs :
  @ret W A a w = (r, w', evs) -> r = Ok a /\ w' = w /\ evs = [].
Proof. now intros [= <- <- <-]. Qed.

Lemma lift_inv {A} (o : outcome A) w r w' evs :
  @lift W A o w = (r, w', evs) -> r = o /\ w' = w /\ evs = [].
Proof. now intros [= <- <- <-]. Qed.

Lemma gets_app ev1 ev2 : gets (ev1 ++ ev2) = gets ev1 ++ gets ev2.
Proof.
  induction ev1 as [|e ev1 IH]; [reflexivity|].
  destruct e; simpl; rewrite IH; reflexivity.
Qed.

End MoreMonadFacts.

(** ** More on the loop bodies *)

Section MoreCardFacts.
Import Py Re Scraper Spec.
Context {U : Unicode}.

Lemma card_price_cases t :
  (search price_re t = None /\ card_price t = lit "N/A") \/
  (exists b post,
     search price_re t = Some (b, card_price t) /\
     t = b ++ card_price t ++ post /\ lang price_re (card_price t)).
Proof.
  unfold card_price. destruct (search price_re t) as [[b m]|] eqn:E.
  - right. destruct (search_sound _ _ E) as (post & Et & L).
    exists b, post. simpl. auto.
  - left. auto.
Qed.

Lemma candidate_ok card p :
  candidate card = Some p ->
  product_ok p /\
  exists t, text card = Ok t /\
            hd_error (split_lines (strip t)) = Some (p_title p) /\
            p_price p = card_price (strip t).
Proof.
  unfold candidate. destruct (text card) as [t|e|]; try discriminate.
  destruct (split_lines_head (strip t)) as (l & ls & rest & E & Es).
  rewrite E. simpl.
  destruct (truthy l) eqn:Ht; simpl; [|discriminate].
  destruct (str_eqb (lower l) (lit "log in")) eqn:Hl; simpl; [discriminate|].
  intros [= <-]. simpl. split; [|exists t; rewrite E; auto].
  repeat split.
  - destruct l; [discriminate|discriminate].
  - apply (split_lines_no_newline (strip t)). rewrite E. now left.
  - intros c r Hc. simpl in Hc. rewrite Hc in Es. simpl in Es. exact (strip_head _ Es).
  - simpl. now apply str_eqb_neq.
  - simpl. destruct (card_price_cases (strip t)) as [[_ H]|(b & post & _ & _ & H)]; auto.
Qed.

Lemma title_taken_existsb ps t :
  title_taken ps t = existsb (str_eqb t) (map p_title ps).
Proof.
  unfold title_taken. induction ps as [|p ps IH]; [reflexivity|]. simpl.
  rewrite IH. f_equal. unfold str_eqb.
  destruct (list_eq_dec N.eq_dec (p_title p) t), (list_eq_dec N.eq_dec t (p_title p));
    congruence.
Qed.

Lemma candidates_cons card page :
  candidates (card :: page) =
  match candidate card with Some p => [p] | None => [] end ++ candidates page.
Proof. reflexivity. Qed.

(** The scan of a page as one expression. *)
Lemma fold_product_step_keep_first page : forall st,
  fold_left (fun s c => product_step c s) page st =
  (fst st ++ keep_first (map p_title (fst st)) (candidates page),
   snd st + length (keep_first (map p_title (fst st)) (candidates page))).
Proof.
  induction page as [|card page IH]; intros [ps n]; cbn [fold_left].
  - simpl. now rewrite app_nil_r, Nat.add_0_r.
  - rewrite IH, candidates_cons. unfold product_step. cbn [fst snd].
    destruct (candidate card) as [p|]; [|reflexivity]. cbn [app keep_first].
    rewrite <- title_taken_existsb.
    destruct (title_taken ps (p_title p)); cbn [fst snd]; [reflexivity|].
    rewrite map_app, <- app_assoc. cbn [map app length]. f_equal. lia.
Qed.

Lemma product_cards_loop_ok cards : forall st st',
  product_cards_loop cards st = Ok st' ->
  st' = fold_left (fun s c => product_step c s) cards st.
Proof.
  induction cards as [|card rest IH]; intros st st'; simpl.
  - now intros [= <-].
  - destruct (product_card card st) as [a|e|] eqn:E; simpl; try discriminate.
    apply product_card_ok in E. subst a. apply IH.
Qed.

Lemma keep_first_ok seen cands :
  Forall product_ok cands -> Forall product_ok (keep_first seen cands).
Proof.
  intros H. revert seen. induction H as [|p cands Hp _ IH]; intros seen; simpl.
  - constructor.
  - destruct (existsb _ seen); [apply IH|]. constructor; [assumption|apply IH].
Qed.

Lemma candidates_ok page : Forall product_ok (candidates page).
Proof.
  induction page as [|card page IH]; [constructor|].
  rewrite candidates_cons. destruct (candidate card) as [p|] eqn:E; [|assumption].
  constructor; [|assumption]. now destruct (candidate_ok _ E).
Qed.

End MoreCardFacts.

(** ** Products: what the pass returns and fetches *)

Section FurtherProducts.
Import Py Re Scraper Spec.
Context {U : Unicode}.

Lemma products_loop_inv W (D : Driver W) (P : list Product -> Prop) :
  (forall cards st st',
     P (fst st) -> product_cards_loop cards st = Ok st' -> P (fst st')) ->
  forall fuel n acc, P acc -> returns (products_loop (W:=W) fuel n acc) P.
Proof.
  intros Hstep. induction fuel as [|fuel IH]; intros n acc Hacc; simpl.
  - apply returns_diverge.
  - eapply returns_bind; [apply returns_any|]. intros _ _.
    eapply returns_bind; [apply returns_any|]. intros _ _.
    eapply returns_bind; [apply returns_any|]. intros cards _.
    destruct cards as [|c cards]; [now apply returns_ret|].
    eapply returns_bind.
    { apply returns_lift with (P := fun st => P (fst st)).
      intros st E. exact (Hstep _ (acc, 0%nat) _ Hacc E). }
    intros st Hst. destruct (snd st =? 0)%nat; [now apply returns_ret|now apply IH].
Qed.

Lemma collect_products_ok W (D : Driver W) fuel :
  returns (collect_products (W:=W) fuel) (Forall product_ok).
Proof.
  apply products_loop_inv; [|constructor].
  intros cards st st' Hst Hl. apply product_cards_loop_ok in Hl. subst st'.
  rewrite fold_product_step_keep_first. cbn [fst].
  apply Forall_app. split; [assumption|]. apply keep_first_ok, candidates_ok.
Qed.

(** X1: every product the pass returns has a title that is one non-empty
    line, does not start with whitespace and is not "log in" in any
    letter case, and a price that is "N/A" or a match of the price
    pattern. *)
Theorem products_wellformed W (D : Driver W) fuel w ps w' evs :
  collect_products fuel w = (Ok ps, w', evs) -> Forall product_ok ps.
Proof. apply collect_products_ok. Qed.

(** X2: the price of a card is the leftmost match of the price pattern in
    its stripped text, taken as it stands in the text, and "N/A" exactly
    when the pattern matches nowhere. *)
Theorem card_price_leftmost t :
  (card_price t = lit "N/A" /\ ~ has_substring (lang price_re) t) \/
  (exists b post,
     t = b ++ card_price t ++ post /\
     lang price_re (card_price t) /\
     forall b' m' post', t = b' ++ m' ++ post' -> lang price_re m' ->
                         (length b <= length b')%nat).
Proof.
  destruct (card_price_cases t) as [[Hs Hp]|(b & post & Hs & Et & L)].
  - left. split; [assumption|]. now apply search_none_iff.
  - right. exists b, post. split; [assumption|]. split; [assumption|].
    intros b' m' post' E' L'. eapply search_leftmost; eassumption.
Qed.

Lemma products_page_first_wins_aux page acc n acc' n' :
  product_cards_loop page (acc, n) = Ok (acc', n') ->
  acc' = acc ++ keep_first (map p_title acc) (candidates page) /\
  n' = (n + length (keep_first (map p_title acc) (candidates page)))%nat.
Proof.
  intros H. apply product_cards_loop_ok in H.
  rewrite fold_product_step_keep_first in H. cbn [fst snd] in H.
  now injection H as -> ->.
Qed.

(** X3: a scan of a page that returns has appended, in page order, the
    first card of each title that was neither held before nor offered
    earlier on the page, and has added their number to the counter. *)
Theorem products_page_first_wins page acc n acc' n' :
  product_cards_loop page (acc, n) = Ok (acc', n') ->
  acc' = acc ++ keep_first (map p_title acc) (candidates page) /\
  n' = (n + length (keep_first (map p_title acc) (candidates page)))%nat.
Proof. apply products_page_first_wins_aux. Qed.

Lemma products_loop_gets W (D : Driver W) fuel : forall n acc w r w' evs,
  products_loop fuel n acc w = (r, w', evs) ->
  exists k, (k <= fuel)%nat /\ gets evs = map products_url (seq n k).
Proof.
  induction fuel as [|fuel IH]; intros n acc w r w' evs H; cbn [products_loop] in H.
  - apply lift_inv in H. destruct H as (_ & _ & ->). exists 0%nat. auto.
  - assert (Hone : forall ev2 k, (k <= fuel)%nat ->
                     gets ev2 = map products_url (seq (S n) k) ->
                     exists k', (k' <= S fuel)%nat /\
                       gets ([EvGet (products_url n)] ++ ev2) =
                       map products_url (seq n k')).
    { intros ev2 k Hk Hg. exists (S k). split; [lia|]. simpl. now rewrite Hg. }
    unfold get, sleep, find_elements in H.
    destruct (bind_cases _ _ _ H) as
      [(a & w1 & ev1 & ev2 & H1 & H2 & ->)|[(e & H1 & _)|(H1 & _)]];
      apply call_inv in H1; destruct H1 as (_ & ->);
      [|exists 1%nat; split; [lia|reflexivity]|exists 1%nat; split; [lia|reflexivity]].
    assert (Hrest : exists k, (k <= fuel)%nat /\
                      gets ev2 = map products_url (seq (S n) k));
      [|destruct Hrest as (k & Hk & Hg); exact (Hone _ _ Hk Hg)].
    clear Hone H.
    destruct (bind_cases _ _ _ H2) as
      [(a1 & w2 & ev3 & ev4 & H3 & H4 & ->)|[(e & H3 & _)|(H3 & _)]];
      apply call_inv in H3; destruct H3 as (_ & ->);
      [|exists 0%nat; split; [lia|reflexivity]|exists 0%nat; split; [lia|reflexivity]].
    destruct (bind_cases _ _ _ H4) as
      [(cards & w3 & ev5 & ev6 & H5 & H6 & ->)|[(e & H5 & _)|(H5 & _)]];
      apply call_inv in H5; destruct H5 as (_ & ->);
      [|exists 0%nat; split; [lia|reflexivity]|exists 0%nat; split; [lia|reflexivity]].
    cbn [app gets].
    destruct cards as [|c cards].
    { apply ret_inv in H6. destruct H6 as (_ & _ & ->). exists 0%nat. split; [lia|reflexivity]. }
    destruct (bind_cases _ _ _ H6) as
      [(st & w4 & ev7 & ev8 & H7 & H8 & ->)|[(e & H7 & _)|(H7 & _)]];
      apply lift_inv in H7; destruct H7 as (_ & _ & ->);
      [|exists 0%nat; split; [lia|reflexivity]|exists 0%nat; split; [lia|reflexivity]].
    cbn [app]. destruct (snd st =? 0)%nat.
    + apply ret_inv in H8. destruct H8 as (_ & _ & ->). exists 0%nat. split; [lia|reflexivity].
    + exact (IH _ _ _ _ _ _ H8).
Qed.

(** X4: whatever its outcome, the products pass requests the pages 1, 2,
    ..., k in this order, each once, for some k within its fuel. *)
Theorem products_fetch_order W (D : Driver W) fuel w r w' evs :
  collect_products fuel w = (r, w', evs) ->
  exists k, (k <= fuel)%nat /\ gets evs = map products_url (seq 1 k).
Proof. apply products_loop_gets. Qed.

End FurtherProducts.

(** ** Reviews and testimonials: what a scan does *)

Section FurtherScans.
Import Py Re Scraper Spec.
Context {U : Unicode}.

Lemma obind_tame {A B} (m : outcome A) (k : A -> outcome B) :
  ~ escapes m -> (forall a, m = Ok a -> ~ escapes (k a)) -> ~ escapes (obind m k).
Proof.
  destruct m as [a|e|]; simpl; intros Hm Hk.
  - now apply Hk.
  - assumption.
  - assumption.
Qed.

Lemma otry_tame {A} (m h : outcome A) a :
  ~ escapes m -> h = Ok a -> exists r, otry m h = Ok r.
Proof.
  intros Hm ->. destruct (otry_cases m (Ok a)) as [(x & _ & E)|[(e & _ & _ & E)|(He & _)]];
    [eauto|eauto|contradiction].
Qed.

Lemma extract_star_rating_tame c :
  ~ escapes (star_paths c) -> ~ escapes (extract_star_rating c).
Proof.
  unfold extract_star_rating. destruct (star_paths c) as [n|e|]; simpl; auto.
  destruct (is_Exception e) eqn:E; simpl; auto.
Qed.

Lemma of_option_tame {A} e (o : option A) :
  is_Exception e = true -> ~ escapes (of_option e o).
Proof. destruct o; simpl; [tauto|congruence]. Qed.

Lemma find_date_tame lines : ~ escapes (find_date lines).
Proof.
  destruct (find_date_cases lines) as [[-> _]|(? & ? & ? & ? & _ & _ & -> & _)];
    simpl; tauto.
Qed.

Lemma product_card_total card st :
  ~ escapes (text card) -> exists st', product_card card st = Ok st'.
Proof. intros H. rewrite (product_card_step _ st H). eauto. Qed.

Lemma review_block_total block acc :
  tame block -> exists f, review_block block acc = Ok f.
Proof.
  intros [Ht Hs]. unfold review_block. eapply otry_tame; [|reflexivity].
  apply obind_tame; [assumption|]. intros t _.
  apply obind_tame; [apply find_date_tame|]. intros [oy od] _. simpl.
  destruct od as [d|]; [|simpl; tauto].
  destruct (negb (truthy d)); [simpl; tauto|].
  apply obind_tame; [now apply of_option_tame|]. intros y _.
  destruct (y <? 2023)%Z; [simpl; tauto|].
  apply obind_tame; [now apply of_option_tame|]. intros rt _.
  apply obind_tame; [now apply extract_star_rating_tame|]. intros s _.
  destruct (negb _); simpl; tauto.
Qed.

Lemma testimonial_card_total card acc :
  tame card -> exists acc', testimonial_card card acc = Ok acc'.
Proof.
  intros [Ht Hs]. unfold testimonial_card. eapply otry_tame; [|reflexivity].
  apply obind_tame; [assumption|]. intros raw _.
  destruct (_ || _ || _); [simpl; tauto|].
  destruct (negb _); [|simpl; tauto].
  apply obind_tame; [now apply extract_star_rating_tame|]. intros s _. simpl. tauto.
Qed.

Lemma product_cards_loop_app pre : forall rest st,
  product_cards_loop (pre ++ rest) st =
  obind (product_cards_loop pre st) (product_cards_loop rest).
Proof.
  induction pre as [|c pre IH]; intros rest st; simpl; [reflexivity|].
  destruct (product_card c st); simpl; auto.
Qed.

Lemma testimonial_cards_loop_app pre : forall rest acc,
  testimonial_cards_loop (pre ++ rest) acc =
  obind (testimonial_cards_loop pre acc) (testimonial_cards_loop rest).
Proof.
  induction pre as [|c pre IH]; intros rest acc; simpl; [reflexivity|].
  destruct (testimonial_card c acc); simpl; auto.
Qed.

Lemma review_blocks_loop_split pre : forall rest acc,
  review_blocks_loop (pre ++ rest) acc =
  obind (review_blocks_loop pre acc)
        (fun st => if snd st then Ok st else review_blocks_loop rest (fst st)).
Proof.
  induction pre as [|b pre IH]; intros rest acc; simpl; [reflexivity|].
  destruct (review_block b acc) as [[a|a]|e|]; simpl; auto.
Qed.

(** What a block does to the list when it returns. *)
Lemma review_block_ok_cases block acc f :
  review_block block acc = Ok f ->
  f = Next acc \/ f = Break acc \/
  exists r t y,
    f = Next (acc ++ [r]) /\ text block = Ok t /\
    find_date (split_lines (strip t)) = Ok (Some y, Some (r_date r)) /\
    max_by_len (split_lines (strip t)) = Some (r_text r) /\
    text_taken acc (r_text r) = false.
Proof.
  intros E. pose proof (review_block_step block acc) as Hs. rewrite E in Hs.
  inversion Hs as [|r y t Ht Hfd Hmx Htk Hby Hly Hy Hr|y Hby Hy|o Ho]; subst; auto.
  - right. right. exists r, t, y. auto.
  - contradiction.
Qed.

Lemma review_block_shape block acc r :
  review_block block acc = Ok (Next (acc ++ [r])) ->
  exists t,
    text block = Ok t /\
    In (r_date r) (split_lines (strip t)) /\
    (exists pre post,
       split_lines (strip t) = pre ++ r_text r :: post /\
       (forall l, In l pre -> (length l < length (r_text r))%nat) /\
       (forall l, In l post -> (length l <= length (r_text r))%nat)) /\
    review_shape r.
Proof.
  intros E. destruct (review_block_ok_cases _ _ E) as [H|[H|(r0 & t & y & H & Ht & Hfd & Hmx & _)]].
  - exfalso. injection H as H. apply (f_equal (@length Review)) in H.
    rewrite length_app in H. simpl in H. lia.
  - discriminate.
  - injection H as H. apply app_inv_head in H. injection H as <-.
    destruct (max_by_len_spec _ Hmx) as (Hin & Hmax).
    assert (Hd : In (r_date r) (split_lines (strip t)) /\ r_date r <> []).
    { destruct (find_date_cases (split_lines (strip t)))
        as [[Hf _]|(pre & line & post & y' & El & _ & Hf & _ & Hne & _)];
        rewrite Hf in Hfd; [discriminate|].
      injection Hfd as _ <-. split; [rewrite El; apply in_elt|assumption]. }
    destruct Hd as (Hd & Hne).
    exists t. split; [assumption|]. split; [assumption|].
    split; [now apply max_by_len_first|].
    split; [assumption|]. split; [|split].
    + now apply (split_lines_no_newline (strip t)).
    + now apply (split_lines_no_newline (strip t)).
    + now apply Hmax.
Qed.

Lemma review_blocks_loop_forall (P : Review -> Prop) :
  (forall block acc r, review_block block acc = Ok (Next (acc ++ [r])) -> P r) ->
  forall blocks acc acc' b,
    Forall P acc -> review_blocks_loop blocks acc = Ok (acc', b) -> Forall P acc'.
Proof.
  intros Hstep. induction blocks as [|block rest IH]; intros acc acc' b Hacc; simpl.
  - now intros [= <- _].
  - destruct (review_block block acc) as [f|e|] eqn:E; simpl; try discriminate.
    assert (Hf : Forall P (match f with Next a => a | Break a => a end)).
    { destruct (review_block_ok_cases _ _ E) as [->|[->|(r & t & y & -> & _)]];
        try assumption.
      apply Forall_app. split; [assumption|]. constructor; [|constructor].
      exact (Hstep _ _ _ E). }
    destruct f as [a|a]; [now apply IH|now intros [= <- _]].
Qed.

(** A scan only appends. *)
Lemma review_blocks_loop_grows blocks : forall acc acc' b,
  review_blocks_loop blocks acc = Ok (acc', b) -> exists ext, acc' = acc ++ ext.
Proof.
  induction blocks as [|block rest IH]; intros acc acc' b; simpl.
  - intros [= <- _]. exists []. now rewrite app_nil_r.
  - destruct (review_block block acc) as [f|e|] eqn:E; simpl; try discriminate.
    destruct (review_block_ok_cases _ _ E) as [->|[->|(r & t & y & -> & _)]].
    + apply IH.
    + intros [= <- _]. exists []. now rewrite app_nil_r.
    + intros H. destruct (IH _ _ _ H) as (ext & ->).
      exists (r :: ext). now rewrite <- app_assoc.
Qed.

(** A block that left a list it was scanned against alone, or added to
    it, leaves alone every list that holds the texts of the result. *)
Lemma review_block_again block acc acc' acc2 :
  review_block block acc = Ok (Next acc') ->
  incl (map r_text acc') (map r_text acc2) ->
  review_block block acc2 = Ok (Next acc2).
Proof.
  unfold review_block. intros H Hincl.
  destruct (text block) as [t|e|]; simpl in *.
  2:{ destruct (is_Exception e); [reflexivity|discriminate]. }
  2:{ discriminate. }
  destruct (find_date (split_lines (strip t))) as [[oy od]|e|]; simpl in *.
  2:{ destruct (is_Exception e); [reflexivity|discriminate]. }
  2:{ discriminate. }
  destruct od as [d|]; [|reflexivity].
  destruct (negb (truthy d)); [reflexivity|].
  destruct oy as [y|]; simpl in *; [|reflexivity].
  destruct (y <? 2023)%Z; [discriminate|].
  destruct (max_by_len (split_lines (strip t))) as [rt|]; simpl in *; [|reflexivity].
  destruct (extract_star_rating block) as [s|e|]; simpl in *.
  2:{ destruct (is_Exception e); [reflexivity|discriminate]. }
  2:{ discriminate. }
  assert (Hin : In rt (map r_text acc')).
  { destruct (text_taken acc rt) eqn:Htk; simpl in H; injection H as <-.
    - now apply text_taken_iff.
    - rewrite map_app. apply in_or_app. right. now left. }
  apply Hincl, text_taken_iff in Hin. now rewrite Hin.
Qed.

Lemma review_blocks_loop_again blocks : forall acc acc1 acc2,
  review_blocks_loop blocks acc = Ok (acc1, false) ->
  incl (map r_text acc1) (map r_text acc2) ->
  review_blocks_loop blocks acc2 = Ok (acc2, false).
Proof.
  induction blocks as [|block rest IH]; intros acc acc1 acc2; simpl; [reflexivity|].
  destruct (review_block block acc) as [[a|a]|e|] eqn:E; simpl; try discriminate.
  intros H Hincl.
  destruct (review_blocks_loop_grows _ _ H) as (ext & Hext).
  assert (Ha : incl (map r_text a) (map r_text acc2)).
  { intros x Hx. apply Hincl. subst acc1. rewrite map_app. apply in_or_app. now left. }
  rewrite review_block_again with (acc := acc) (acc' := a) by assumption. simpl.
  now apply IH with a acc1.
Qed.

Lemma testimonial_card_ok_cases card acc acc' :
  testimonial_card card acc = Ok acc' ->
  acc' = acc \/
  exists x raw, acc' = acc ++ [x] /\ text card = Ok raw /\
                t_text x = strip (replace_newlines raw).
Proof.
  intros E. pose proof (testimonial_card_step card acc) as Hs. rewrite E in Hs.
  inversion Hs as [|x raw Ht Hx Htk Hb Hl Hr|o Ho]; subst; auto.
  - right. exists x, raw. auto.
  - contradiction.
Qed.

Lemma testimonial_cards_loop_forall (P : Testimonial -> Prop) :
  (forall x raw, t_text x = strip (replace_newlines raw) -> P x) ->
  forall cards acc acc',
    Forall P acc -> testimonial_cards_loop cards acc = Ok acc' -> Forall P acc'.
Proof.
  intros Hstep. induction cards as [|card rest IH]; intros acc acc' Hacc; simpl.
  - now intros [= <-].
  - destruct (testimonial_card card acc) as [a|e|] eqn:E; simpl; try discriminate.
    apply IH. destruct (testimonial_card_ok_cases _ _ E) as [->|(x & raw & -> & _ & Hx)];
      [assumption|].
    apply Forall_app. split; [assumption|]. constructor; [|constructor]. eauto.
Qed.

Lemma strip_replace_trimmed raw : trimmed_line (strip (replace_newlines raw)).
Proof.
  split; [|split].
  - apply strip_no_newline, replace_newlines_no_newline.
  - intros c rest. apply strip_head.
  - intros c front. apply strip_last.
Qed.

End FurtherScans.

(** ** Reviews and testimonials: what the passes return *)

Section FurtherPasses.
Import Py Re Scraper Spec.
Context {U : Unicode}.

Lemma reviews_loop_inv W (D : Driver W) (P : list Review -> Prop) :
  (forall blocks a a' b, P a -> review_blocks_loop blocks a = Ok (a', b) -> P a') ->
  forall fuel acc, P acc -> returns (reviews_loop (W:=W) fuel acc) P.
Proof.
  intros Hstep. induction fuel as [|fuel IH]; intros acc Hacc; simpl.
  - apply returns_diverge.
  - eapply returns_bind; [apply returns_any|]. intros blocks _.
    eapply returns_bind.
    { apply returns_lift with (P := fun st => P (fst st)).
      intros [a' b] E. exact (Hstep _ _ _ _ Hacc E). }
    intros [a' b] Ha. simpl in *. destruct b; [now apply returns_ret|].
    eapply returns_bind; [apply returns_any|]. intros _ _.
    eapply returns_bind; [apply returns_any|]. intros _ _.
    eapply returns_bind; [apply returns_any|]. intros again _.
    destruct again; [now apply IH|now apply returns_ret].
Qed.

Lemma collect_reviews_shape W (D : Driver W) fuel :
  returns (collect_reviews (W:=W) fuel) (Forall review_shape).
Proof.
  unfold collect_reviews.
  eapply returns_bind; [apply returns_any|]. intros _ _.
  eapply returns_bind; [apply returns_any|]. intros _ _.
  apply reviews_loop_inv; [|constructor].
  intros blocks a a' b Ha E.
  eapply review_blocks_loop_forall; [|exact Ha|exact E].
  intros block acc r Hr. apply review_block_shape in Hr.
  now destruct Hr as (t & _ & _ & _ & H).
Qed.

Lemma collect_testimonials_trimmed W (D : Driver W) fuel :
  returns (collect_testimonials (W:=W) fuel)
          (Forall (fun x => trimmed_line (t_text x))).
Proof.
  unfold collect_testimonials.
  eapply returns_bind; [apply returns_any|]. intros _ _.
  eapply returns_bind; [apply returns_any|]. intros _ _.
  eapply returns_bind; [apply returns_any|]. intros h _.
  eapply returns_bind; [apply returns_any|]. intros _ _.
  eapply returns_bind; [apply returns_any|]. intros cards _.
  apply returns_lift. intros acc E.
  eapply testimonial_cards_loop_forall; [|apply Forall_nil|exact E].
  intros x raw ->. apply strip_replace_trimmed.
Qed.

(** X5: a lookup on an element that raises an [Exception] never ends a
    scan.  When every lookup answers or raises an [Exception] the three
    [for] loops return; and an element whose text cannot be read counts
    for nothing: the scan is that of the page without it. *)
Theorem element_failure_is_local :
  (forall cards st, readable cards ->
     exists st', product_cards_loop cards st = Ok st') /\
  (forall blocks acc, Forall tame blocks ->
     exists acc' b, review_blocks_loop blocks acc = Ok (acc', b)) /\
  (forall cards acc, Forall tame cards ->
     exists acc', testimonial_cards_loop cards acc = Ok acc') /\
  (forall pre bad post st e,
     text bad = Raise e -> is_Exception e = true ->
     product_cards_loop (pre ++ bad :: post) st =
     product_cards_loop (pre ++ post) st) /\
  (forall pre bad post acc e,
     text bad = Raise e -> is_Exception e = true ->
     review_blocks_loop (pre ++ bad :: post) acc =
     review_blocks_loop (pre ++ post) acc) /\
  (forall pre bad post acc e,
     text bad = Raise e -> is_Exception e = true ->
     testimonial_cards_loop (pre ++ bad :: post) acc =
     testimonial_cards_loop (pre ++ post) acc).
Proof.
  split; [|split; [|split; [|split; [|split]]]].
  - intros cards st H. rewrite (product_cards_loop_readable st H). eauto.
  - induction blocks as [|block rest IH]; intros acc H; simpl; [eauto|].
    inversion H as [|? ? Hb Hr]; subst.
    destruct (review_block_total acc Hb) as ([a|a] & ->); simpl; eauto.
  - induction cards as [|card rest IH]; intros acc H; simpl; [eauto|].
    inversion H as [|? ? Hc Hr]; subst.
    destruct (testimonial_card_total acc Hc) as (a & ->); simpl; eauto.
  - intros pre bad post st e Ht He. rewrite !product_cards_loop_app.
    destruct (product_cards_loop pre st) as [[ps n]|x|]; simpl; try reflexivity.
    unfold product_card. rewrite Ht. simpl. rewrite He. reflexivity.
  - intros pre bad post acc e Ht He. rewrite !review_blocks_loop_split.
    destruct (review_blocks_loop pre acc) as [[a b]|x|]; simpl; try reflexivity.
    destruct b; [reflexivity|].
    unfold review_block. rewrite Ht. simpl. rewrite He. reflexivity.
  - intros pre bad post acc e Ht He. rewrite !testimonial_cards_loop_app.
    destruct (testimonial_cards_loop pre acc) as [a|x|]; simpl; try reflexivity.
    unfold testimonial_card. rewrite Ht. simpl. rewrite He. reflexivity.
Qed.

(** X6: the text of an accepted review is the first of the longest lines
    of the stripped text of its block; its date is a line of the same
    block, not empty and no longer than the text. *)
Theorem review_text_is_longest_line block acc r :
  review_block block acc = Ok (Next (acc ++ [r])) ->
  exists t,
    text block = Ok t /\
    In (r_date r) (split_lines (strip t)) /\
    (exists pre post,
       split_lines (strip t) = pre ++ r_text r :: post /\
       (forall l, In l pre -> (length l < length (r_text r))%nat) /\
       (forall l, In l post -> (length l <= length (r_text r))%nat)) /\
    review_shape r.
Proof. apply review_block_shape. Qed.

(** X7: once a scan of the loaded blocks has gone through without
    cutoff, scanning the container again after it was extended does what
    scanning the new blocks alone does: the blocks seen before add
    nothing and stop nothing. *)
Theorem rescan_adds_nothing blocks acc acc1 new :
  review_blocks_loop blocks acc = Ok (acc1, false) ->
  review_blocks_loop (blocks ++ new) acc1 = review_blocks_loop new acc1.
Proof.
  intros H. rewrite review_blocks_loop_split.
  rewrite review_blocks_loop_again with (acc := acc) (acc1 := acc1);
    [reflexivity|assumption|apply incl_refl].
Qed.

(** X8: the loops of the review and product passes only append: the list
    they return starts with the list they were entered with. *)
Theorem passes_only_append :
  (forall W (D : Driver W) fuel acc w rs w' evs,
     reviews_loop fuel acc w = (Ok rs, w', evs) -> exists ext, rs = acc ++ ext) /\
  (forall W (D : Driver W) fuel n acc w ps w' evs,
     products_loop fuel n acc w = (Ok ps, w', evs) -> exists ext, ps = acc ++ ext).
Proof.
  split.
  - intros W D fuel acc w rs w' evs E.
    refine (reviews_loop_inv D (fun a => exists ext, a = acc ++ ext) _ fuel acc _ _ E).
    + intros blocks a a' b (ext & ->) Hl.
      apply review_blocks_loop_grows in Hl. destruct Hl as (ext' & ->).
      exists (ext ++ ext'). now rewrite app_assoc.
    + exists []. now rewrite app_nil_r.
  - intros W D fuel n acc w ps w' evs E.
    refine (products_loop_inv D (fun a => exists ext, a = acc ++ ext) _ fuel n acc _ _ E).
    + intros cards [a k] [a' k'] (ext & Ha) Hl. cbn [fst] in *. subst a.
      apply products_page_first_wins_aux in Hl. destruct Hl as (-> & _).
      eexists. now rewrite <- app_assoc.
    + exists []. now rewrite app_nil_r.
Qed.

End FurtherPasses.

(** ** The traces of the passes and of the run *)

Ltac step_call :=
  erewrite bind_ok by (apply call_eq; eassumption); cbv beta iota.

Section FurtherRuns.
Import Py Re Scraper Spec.
Context {U : Unicode}.



(** X10: when the scan meets no cutoff and the load-more control is
    found, displayed, clicked and followed by more blocks in time, the
    review pass goes round again with the list the scan left, from the
    world the last sleep left; it had waited for more blocks than the
    number it had just scanned.  The trace of the round holds its calls
    on the driver and the clock, [wait.until] as one entry whatever it
    polls; the reads on elements ([block.text], the star lookup,
    [is_displayed]) are not in it. *)
Theorem load_more_continues W (D : Driver W)
  fuel acc w blocks w1 acc1 v w2 w3 load_more w4 v' w5 w6 w7 :
  drv_find_elements CLASS_NAME (lit "review") w = (Ok blocks, w1) ->
  review_blocks_loop blocks acc = Ok (acc1, false) ->
  drv_execute_script scroll_script [] w1 = (Ok v, w2) ->
  os_sleep 1 w2 = (Ok tt, w3) ->
  drv_find_element ID (lit "page-load-more") w3 = (Ok load_more, w4) ->
  is_displayed load_more = Ok true ->
  drv_execute_script click_script [load_more] w4 = (Ok v', w5) ->
  drv_wait_until_more (length blocks) w5 = (Ok tt, w6) ->
  os_sleep 1 w6 = (Ok tt, w7) ->
  reviews_loop (S fuel) acc w =
    (let '(r, w8, evs) := reviews_loop fuel acc1 w7 in
     (r, w8, load_round (length blocks) ++ evs)).
Proof.
  intros Hf Hl Hs Hsl Hfe Hd Hc Hw Hsl2.
  assert (Hlm : load_more_step (length blocks) w3 =
                (Ok true, w7,
                 [EvFindOne ID (lit "page-load-more"); EvScript click_script;
                  EvWait (length blocks); EvSleep 1])).
  { unfold load_more_step, try_except, find_element, execute_script,
      wait_until_more, sleep.
    step_call. unfold bind at 1, lift. rewrite Hd. cbn [negb].
    step_call. step_call. step_call. reflexivity. }
  cbn [reviews_loop]. unfold find_elements, execute_script, sleep.
  step_call. unfold bind at 1, lift. rewrite Hl. cbn [fst snd].
  step_call. step_call. unfold bind at 1. rewrite Hlm.
  destruct (reviews_loop fuel acc1 w7) as [[r w8] evs]. reflexivity.
Qed.

(** X11: when Chrome cannot be started the run raises at once: no page is
    fetched, [driver.quit()] is not called and nothing is written. *)
Theorem start_failure_aborts W (D : Driver W) fuel w e w0 :
  drv_start w = (Raise e, w0) ->
  run_scraper fuel w = (Raise e, w0, [EvStart]).
Proof.
  intros H. unfold run_scraper, init_browser, start.
  erewrite bind_raise by (apply call_eq; exact H). reflexivity.
Qed.

(** X12: when the three passes have returned but [driver.quit()] raises,
    the run raises that exception and the document is not written. *)
Theorem quit_failure_loses_document W (D : Driver W) fuel w w0 doc w1 ec e w2 :
  drv_start w = (Ok tt, w0) ->
  collect_all fuel w0 = (Ok doc, w1, ec) ->
  drv_quit w1 = (Raise e, w2) ->
  run_scraper fuel w = (Raise e, w2, EvStart :: ec ++ [EvQuit]) /\
  existsb is_dump (EvStart :: ec ++ [EvQuit]) = false.
Proof.
  intros Hs Hc Hq. split.
  - unfold run_scraper, init_browser, start. step_call.
    unfold bind at 1, try_finally. rewrite Hc. unfold quit, call. rewrite Hq.
    reflexivity.
  - pose proof (collect_all_emits D fuel) as He. apply He in Hc.
    apply no_dump_in in Hc. simpl. now rewrite existsb_app, Hc.
Qed.

Lemma collect_all_ok W (D : Driver W) fuel :
  returns (collect_all (W:=W) fuel) document_ok.
Proof.
  unfold collect_all.
  eapply returns_bind with (P := fun ps => NoDup (map p_title ps) /\ Forall product_ok ps).
  { intros w ps w' evs E. split.
    - exact (collect_products_nodup fuel _ E).
    - exact (collect_products_ok D fuel _ E). }
  intros ps [Hn Hp].
  eapply returns_bind with (P := fun rs => review_ok rs /\ Forall review_shape rs).
  { intros w rs w' evs E. split.
    - exact (collect_reviews_ok fuel _ E).
    - exact (collect_reviews_shape D fuel _ E). }
  intros rs [Hr Hs].
  eapply returns_bind
    with (P := fun ts => testimonial_ok ts /\ Forall (fun x => trimmed_line (t_text x)) ts).
  { intros w ts w' evs E. split.
    - exact (collect_testimonials_ok fuel _ E).
    - exact (collect_testimonials_trimmed D fuel _ E). }
  intros ts [Ht Htr]. apply returns_ret.
  exact (conj Hn (conj Hp (conj Hr (conj Hs (conj Ht Htr))))).
Qed.

Lemma not_in_collect W (D : Driver W) fuel w r w' ec file doc :
  collect_all fuel w = (r, w', ec) -> ~ In (EvDump file doc) ec.
Proof.
  intros Hc Hin. pose proof (collect_all_emits D fuel) as He. apply He in Hc.
  rewrite Forall_forall in Hc. apply Hc in Hin. simpl in Hin. now destruct Hin.
Qed.

(** X13: in any run, a write of a document is a write to
    "scraped_data.json", happens once, as the last call and right after
    [driver.quit()], and the document written is the one the three passes
    returned: titles unique and well formed, reviews of 2023 or later with
    unique texts and ratings from 1 to 5, testimonials of 10 to 400
    characters with unique texts. *)
Theorem written_document_ok W (D : Driver W) fuel w r w' evs file doc :
  run_scraper fuel w = (r, w', evs) ->
  In (EvDump file doc) evs ->
  file = output_file /\ document_ok doc /\
  exists w0 w1 ec,
    collect_all fuel w0 = (Ok doc, w1, ec) /\
    existsb is_dump ec = false /\
    evs = EvStart :: ec ++ [EvQuit; EvDump output_file doc].
Proof.
  intros Hrun Hin.
  unfold run_scraper, init_browser, start, bind at 1, call at 1 in Hrun.
  destruct (drv_start w) as [[[]|e|] w0] eqn:Hs;
    try (injection Hrun as _ _ <-; destruct Hin as [Hin|[]]; discriminate).
  unfold bind at 1, try_finally in Hrun.
  destruct (collect_all fuel w0) as [[[d|e|] w1] ec] eqn:Hc;
    pose proof (not_in_collect D fuel _ file doc Hc) as Hnot.
  - pose proof (collect_all_emits D fuel) as He. apply He in Hc as Hnd.
    apply no_dump_in in Hnd.
    unfold quit, call at 1 in Hrun. destruct (drv_quit w1) as [[u|e'|] w2].
    + unfold dump, call in Hrun. destruct (os_dump output_file d w2) as [rd wd].
      injection Hrun as _ _ <-.
      assert (Hd : EvDump output_file d = EvDump file doc).
      { cbn [app] in Hin. destruct Hin as [Hin|Hin]; [discriminate|].
        rewrite ?in_app_iff in Hin. simpl in Hin.
        intuition (try discriminate; try assumption). }
      injection Hd as <- <-. split; [reflexivity|]. split.
      * exact (collect_all_ok D fuel _ Hc).
      * exists w0, w1, ec. split; [assumption|]. split; [assumption|].
        cbn [app]. now rewrite <- app_assoc.
    + injection Hrun as _ _ <-. exfalso. cbn [app] in Hin.
      destruct Hin as [Hin|Hin]; [discriminate|].
      rewrite ?in_app_iff in Hin. simpl in Hin. intuition discriminate.
    + injection Hrun as _ _ <-. exfalso. cbn [app] in Hin.
      destruct Hin as [Hin|Hin]; [discriminate|].
      rewrite ?in_app_iff in Hin. simpl in Hin. intuition discriminate.
  - unfold quit, call in Hrun.
    destruct (drv_quit w1) as [[u|e'|] w2]; injection Hrun as _ _ <-; exfalso;
      cbn [app] in Hin; (destruct Hin as [Hin|Hin]; [discriminate|]);
      rewrite ?in_app_iff in Hin; simpl in Hin; intuition discriminate.
  - injection Hrun as _ _ <-. exfalso. cbn [app] in Hin.
    destruct Hin as [Hin|Hin]; [discriminate|].
    rewrite ?in_app_iff in Hin. simpl in Hin. intuition discriminate.
Qed.

(** X14: in every review the pass returns, date and text are single lines
    (no newline), the date is not empty and the text is at least as long
    as the date. *)
Theorem reviews_wellshaped W (D : Driver W) fuel w rs w' evs :
  collect_reviews fuel w = (Ok rs, w', evs) -> Forall review_shape rs.
Proof. apply collect_reviews_shape. Qed.

(** X15: the text of every testimonial the pass returns holds no newline
    and neither starts nor ends with whitespace. *)
Theorem testimonials_trimmed W (D : Driver W) fuel w ts w' evs :
  collect_testimonials fuel w = (Ok ts, w', evs) ->
  Forall (fun x => trimmed_line (t_text x)) ts.
Proof. apply collect_testimonials_trimmed. Qed.

End FurtherRuns.

(** ** When a block or a card is accepted *)

Section FurtherRules.
Import Py Re Scraper Spec.
Context {U : Unicode}.

Lemma app_same_length {A} (a b x y : list A) :
  length a = length b -> a ++ x = b ++ y -> a = b /\ x = y.
Proof.
  revert b. induction a as [|h a IH]; intros [|k b] Hl E; simpl in *;
    try discriminate; [auto|].
  injection Hl as Hl. injection E as -> E. destruct (IH _ Hl E) as [-> ->]. auto.
Qed.

Lemma extract_star_rating_answers c :
  ~ escapes (star_paths c) -> exists s, extract_star_rating c = Ok s.
Proof.
  unfold extract_star_rating. destruct (star_paths c) as [n|e|]; simpl.
  - eauto.
  - destruct (is_Exception e); [eauto|congruence].
  - tauto.
Qed.

(** X16: the year of a line is read from its leftmost '20dd' token: a
    line showing several years counts for the first one. *)
Theorem line_year_leftmost line b a1 a2 post d1 d2 :
  line = b ++ [50; 48; a1; a2]%N ++ post ->
  decimal a1 = Some d1 -> decimal a2 = Some d2 ->
  (forall b' m' post', line = b' ++ m' ++ post' -> year_token m' ->
                       (length b <= length b')%nat) ->
  line_year line = Some (2000 + 10 * Z.of_N d1 + Z.of_N d2)%Z.
Proof.
  intros El Da Db Hleft.
  assert (Htok : year_token [50; 48; a1; a2]%N).
  { exists a1, a2. unfold isdigit. now rewrite Da, Db. }
  unfold line_year. destruct (search year_re line) as [[b0 m0]|] eqn:E.
  2:{ exfalso. apply search_year_none_iff in E. apply E.
      now exists b, [50; 48; a1; a2]%N, post. }
  destruct (search_sound _ _ E) as (post0 & E0 & L0).
  apply lang_year_re in L0.
  assert (Hle : (length b0 <= length b)%nat).
  { eapply search_leftmost; [exact E|exact El|now apply lang_year_re]. }
  pose proof (Hleft _ _ _ E0 L0) as Hge.
  destruct L0 as (x & y & -> & _ & _).
  rewrite El in E0.
  assert (Hlen : length b = length b0) by (unfold str, char in *; lia).
  destruct (@app_same_length _ b b0 _ _ Hlen E0) as [_ Em].
  injection Em as <- <- _. unfold group0. cbn [snd].
  unfold int. cbn [int_digits].
  change (decimal 50%N) with (Some 2%N). change (decimal 48%N) with (Some 0%N).
  cbn iota. rewrite Da, Db. f_equal. lia.
Qed.

(** X17: a testimonial card is accepted whenever its text, newlines
    replaced and stripped, has 10 to 400 characters, holds neither marker,
    is not held yet, and the star lookup answers or raises an
    [Exception]: the filter rejects nothing else. *)
Theorem testimonial_accept_rule card acc raw :
  text card = Ok raw ->
  (10 <= length (strip (replace_newlines raw)) <= 400)%nat ->
  (~ exists pre post, strip (replace_newlines raw) = pre ++ lit "Take a look" ++ post) ->
  (~ exists pre post, strip (replace_newlines raw) = pre ++ lit "collection" ++ post) ->
  ~ In (strip (replace_newlines raw)) (map t_text acc) ->
  ~ escapes (star_paths card) ->
  testimonial_card card acc =
    Ok (acc ++ [{| t_text := strip (replace_newlines raw);
                   t_rating := rating_of (star_paths card) |}]).
Proof.
  intros Ht Hl H1 H2 Hnew Hs. unfold testimonial_card. rewrite Ht. simpl.
  set (t := strip (replace_newlines raw)) in *.
  assert (Hb : is_boilerplate t = false).
  { unfold is_boilerplate. apply orb_false_iff. split.
    - destruct (contains (lit "Take a look") t) eqn:E; [|reflexivity].
      apply contains_iff in E. contradiction.
    - destruct (contains (lit "collection") t) eqn:E; [|reflexivity].
      apply contains_iff in E. contradiction. }
  rewrite Hb.
  destruct (Nat.ltb_spec (length t) 10); [lia|].
  destruct (Nat.ltb_spec 400 (length t)); [lia|]. simpl.
  destruct (testimonial_taken acc t) eqn:Htk.
  { apply testimonial_taken_iff in Htk. contradiction. }
  simpl. destruct (extract_star_rating_answers _ Hs) as (s & Es).
  rewrite Es. simpl. now rewrite (extract_star_rating_rating_of _ Es).
Qed.

(** X18: a review block is accepted whenever its first line showing a
    year shows 2023 or later, its longest line is not held yet as a text,
    and the star lookup answers or raises an [Exception]; the record
    holds that line as date and the longest line as text. *)
Theorem review_accept_rule block acc t pre d post y rt :
  text block = Ok t ->
  split_lines (strip t) = pre ++ d :: post ->
  (forall l, In l pre -> ~ has_substring year_token l) ->
  line_year d = Some y -> (2023 <= y)%Z ->
  max_by_len (split_lines (strip t)) = Some rt ->
  ~ In rt (map r_text acc) ->
  ~ escapes (star_paths block) ->
  review_block block acc =
    Ok (Next (acc ++ [{| r_date := d; r_text := rt;
                         r_rating := rating_of (star_paths block) |}])).
Proof.
  intros Ht El Hpre Hy Hge Hmx Hnew Hs.
  assert (Hd : has_substring year_token d /\ d <> []).
  { unfold line_year in Hy. destruct (search year_re d) as [[b m]|] eqn:E; [|discriminate].
    destruct (search_year_some _ E) as (_ & Hne & _).
    destruct (search_sound _ _ E) as (p0 & Ed & L). split; [|assumption].
    exists b, m, p0. split; [assumption|]. now apply lang_year_re. }
  destruct Hd as (Hd & Hne).
  destruct (@find_date_first _ pre d post Hpre Hd) as (y' & Hfd & Hy' & _).
  rewrite Hy in Hy'. injection Hy' as <-.
  unfold review_block. rewrite Ht. cbn [obind]. rewrite El, Hfd. cbn [obind snd fst].
  destruct d as [|c d]; [congruence|]. cbn [truthy negb of_option obind].
  destruct (Z.ltb_spec y 2023); [lia|].
  rewrite <- El, Hmx. cbn [of_option obind].
  destruct (extract_star_rating_answers _ Hs) as (s & Es).
  rewrite Es. cbn [obind]. rewrite (extract_star_rating_rating_of _ Es).
  destruct (text_taken acc rt) eqn:Htk.
  { apply text_taken_iff in Htk. contradiction. }
  reflexivity.
Qed.

End FurtherRules.

(** ** Runs on the scripted site, continued *)

Section MoreRuns.
Import Py Re Scraper Spec Fixture.

Lemma products_wellformed_witness : Forall product_ok shop_products.
Proof.
  destruct shop_products_run as (evs & E).
  exact (@products_wellformed ascii_tables _ _ _ _ _ _ _ E).
Defined.

Lemma products_page_first_wins_witness :
  shop_products =
    firstn 2 shop_products ++
    keep_first (map p_title (firstn 2 shop_products))
               (candidates (nth 1 (product_pages shop) [])) /\
  2%nat = (0 + length (keep_first (map p_title (firstn 2 shop_products))
                                  (candidates (nth 1 (product_pages shop) []))))%nat.
Proof.
  apply (@products_page_first_wins ascii_tables (nth 1 (product_pages shop) [])
           (firstn 2 shop_products) 0%nat shop_products 2%nat).
  vm_compute. reflexivity.
Defined.

Lemma products_fetch_order_witness :
  exists evs k,
    collect_products 5 (open_at shop) = (Ok shop_products, on_page shop 3, evs) /\
    (k <= 5)%nat /\ gets evs = map products_url (seq 1 k).
Proof.
  destruct shop_products_run as (evs & E).
  destruct (@products_fetch_order ascii_tables _ _ _ _ _ _ _ E) as (k & Hk & Hg).
  exists evs, k. auto.
Defined.

Lemma review_text_is_longest_line_witness :
  exists t,
    text (element ["2023-05-18"; "Great value, tasty chocolate"]%string 5) = Ok t /\
    In (lit "2023-05-18") (split_lines (strip t)) /\
    (exists pre post,
       split_lines (strip t) = pre ++ lit "Great value, tasty chocolate" :: post /\
       (forall l, In l pre ->
                  (length l < length (lit "Great value, tasty chocolate"))%nat) /\
       (forall l, In l post ->
                  (length l <= length (lit "Great value, tasty chocolate"))%nat)) /\
    review_shape {| r_date := lit "2023-05-18";
                    r_text := lit "Great value, tasty chocolate"; r_rating := 5 |}.
Proof.
  apply (@review_text_is_longest_line ascii_tables
           (element ["2023-05-18"; "Great value, tasty chocolate"]%string 5) []
           {| r_date := lit "2023-05-18";
              r_text := lit "Great value, tasty chocolate"; r_rating := 5 |}).
  vm_compute. reflexivity.
Defined.

Lemma rescan_adds_nothing_witness :
  review_blocks_loop (nth 0 (review_loads shop) [] ++ nth 1 (review_loads shop) [])
                     shop_reviews =
  review_blocks_loop (nth 1 (review_loads shop) []) shop_reviews.
Proof.
  apply (@rescan_adds_nothing ascii_tables (nth 0 (review_loads shop) []) []).
  vm_compute. reflexivity.
Defined.


Lemma load_more_continues_witness :
  reviews_loop 2 [] (on_reviews shop) =
    (let '(r, w8, evs) :=
       reviews_loop 1 shop_reviews
         {| site := shop; location := reviews_url; clicks := 1; scrolls := 1 |} in
     (r, w8, load_round 2 ++ evs)).
Proof.
  apply (@load_more_continues ascii_tables Browser scripted 1%nat [] (on_reviews shop)
           (nth 0 (review_loads shop) []) (on_reviews shop) shop_reviews None
           {| site := shop; location := reviews_url; clicks := 0; scrolls := 1 |}
           {| site := shop; location := reviews_url; clicks := 0; scrolls := 1 |}
           (element ["Load more"%string] 0)
           {| site := shop; location := reviews_url; clicks := 0; scrolls := 1 |}
           None
           {| site := shop; location := reviews_url; clicks := 1; scrolls := 1 |}
           {| site := shop; location := reviews_url; clicks := 1; scrolls := 1 |});
    vm_compute; reflexivity.
Defined.

Lemma start_failure_aborts_witness :
  run_scraper (D := no_chrome) 3 (open_at shop) =
    (Raise WebDriverException, open_at shop, [EvStart]).
Proof.
  apply (@start_failure_aborts ascii_tables Browser no_chrome). reflexivity.
Defined.

Lemma quit_failure_loses_document_witness :
  exists b ec,
    run_scraper (D := fragile) 5 (open_at shop) =
      (Raise WebDriverException, b, EvStart :: ec ++ [EvQuit]) /\
    existsb is_dump (EvStart :: ec ++ [EvQuit]) = false.
Proof.
  assert (Hc : exists b ec,
             collect_all (D := fragile) 5 (open_at shop) = (Ok shop_document, b, ec)).
  { eexists. eexists. vm_compute. reflexivity. }
  destruct Hc as (b & ec & Hc). exists b, ec.
  apply (@quit_failure_loses_document ascii_tables Browser fragile 5%nat
           (open_at shop) (open_at shop) shop_document b ec WebDriverException b);
    [reflexivity|exact Hc|reflexivity].
Defined.

Lemma written_document_ok_witness :
  document_ok shop_document /\
  exists b ec,
    run_scraper 5 (open_at shop) =
      (Ok tt, b, EvStart :: ec ++ [EvQuit; EvDump output_file shop_document]).
Proof.
  assert (Hrun : exists b evs,
             run_scraper 5 (open_at shop) = (Ok tt, b, evs) /\
             In (EvDump output_file shop_document) evs).
  { eexists. eexists. split; [vm_compute; reflexivity|].
    repeat (first [left; reflexivity|right]). }
  destruct Hrun as (b & evs & Hrun & Hin).
  destruct (@written_document_ok ascii_tables _ _ _ _ _ _ _ _ _ Hrun Hin)
    as (_ & Hok & w0 & w1 & ec & _ & _ & Hev).
  split; [exact Hok|]. exists b, ec. now rewrite <- Hev.
Defined.

Lemma reviews_wellshaped_witness : Forall review_shape shop_reviews.
Proof.
  destruct shop_reviews_run as (b & evs & E).
  exact (@reviews_wellshaped ascii_tables _ _ _ _ _ _ _ E).
Defined.

Lemma testimonials_trimmed_witness :
  Forall (fun x => trimmed_line (t_text x)) shop_testimonials.
Proof.
  destruct shop_testimonials_run as (b & evs & E).
  exact (@testimonials_trimmed ascii_tables _ _ _ _ _ _ _ E).
Defined.

Lemma line_year_leftmost_witness :
  line_year (lit "2021-2024") = Some (2000 + 10 * Z.of_N 2 + Z.of_N 1)%Z.
Proof.
  apply (@line_year_leftmost ascii_tables (lit "2021-2024") [] 50%N 49%N
           (lit "-2024") 2%N 1%N); try reflexivity.
  intros b' m' post' _ _. simpl. lia.
Defined.

Lemma testimonial_accept_rule_witness :
  testimonial_card (element ["Great shop"%string] 4) [] =
    Ok [{| t_text := lit "Great shop"; t_rating := 4 |}].
Proof.
  apply (@testimonial_accept_rule ascii_tables (element ["Great shop"%string] 4) []
           (lit "Great shop")).
  - reflexivity.
  - vm_compute. lia.
  - intros H. apply contains_iff in H. vm_compute in H. discriminate.
  - intros H. apply contains_iff in H. vm_compute in H. discriminate.
  - intros [].
  - simpl. tauto.
Defined.

Lemma review_accept_rule_witness :
  review_block (element ["2023-05-18"; "Great value, tasty chocolate"]%string 5) [] =
    Ok (Next [{| r_date := lit "2023-05-18";
                 r_text := lit "Great value, tasty chocolate"; r_rating := 5 |}]).
Proof.
  apply (@review_accept_rule ascii_tables
           (element ["2023-05-18"; "Great value, tasty chocolate"]%string 5) []
           (joined ["2023-05-18"; "Great value, tasty chocolate"]%string)
           [] (lit "2023-05-18") [lit "Great value, tasty chocolate"] 2023%Z
           (lit "Great value, tasty chocolate")).
  - reflexivity.
  - vm_compute. reflexivity.
  - intros l [].
  - vm_compute. reflexivity.
  - lia.
  - vm_compute. reflexivity.
  - intros [].
  - simpl. tauto.
Defined.

End MoreRuns.
